(** * resnet18_mnist_ddp: a shallow embedding of the distributed training driver

    The development follows [Homework2/Code/DDP/resnet18_mnist_ddp.py]:
    [dist_init], [cleanup], [train], [test] and [main] are embedded as
    functions in a small trace-and-exception monad.  What the script takes
    from Python, torch and the cluster (floating point arithmetic, the
    network, the optimizer, [int()], the shell) is an interface, the class
    [Runtime]; what one process finds when it starts (its environment, the
    rendezvous, the data on disk) is a record, [World]. *)

From Stdlib Require Import ZArith QArith Lia.
From stdpp Require Import base tactics option list strings gmap pretty.

Local Open Scope string_scope.
Local Open Scope Z_scope.
Local Open Scope list_scope.

(** ** Python exceptions raised on the paths of the script *)

Inductive exn : Type :=
| KeyError (key : string)
| ValueError (what : string)
| ZeroDivisionError
| RuntimeError (what : string).

(** ** The runtime interface *)

Class Runtime : Type := {
  (** Python [float] with the operations the script uses. *)
  pyfloat : Type;
  of_int : Z → pyfloat;
  fadd : pyfloat → pyfloat → pyfloat;
  fmul : pyfloat → pyfloat → pyfloat;
  fdiv : pyfloat → pyfloat → pyfloat;
  fis_zero : pyfloat → bool;
  (** The builtin [int(str)]; [None] stands for its [ValueError]. *)
  py_int : string → option Z;
  (** [subprocess.getoutput]. *)
  getoutput : string → string;
  (** [torch.randperm(n, generator=g)] for a generator seeded with [g]. *)
  randperm : Z → nat → list nat;
  (** One input image and the output row of the network for it. *)
  Image : Type;
  Logits : Type;
  (** A replica with its optimizer: parameters, gradients, buffers, momentum. *)
  Net : Type;
  net_train : Net → Net;
  net_eval : Net → Net;
  zero_grad : Net → Net;
  forward : Net → list Image → Net * list Logits;
  cross_entropy : Logits → Z → pyfloat;
  backward : Net → list Logits → list Z → Net;
  (** The averaging of the gradients over the ranks, which the
      DistributedDataParallel wrapper runs when the backward pass completes. *)
  all_reduce : Net → Net;
  optimizer_step : Net → Net;
  argmax : Logits → Z;
}.

Section Driver.
Context `{RT : Runtime}.

(** ** Console lines, operations of a step, and the trace of a process *)

Inductive console_line : Type :=
| TrainLine (epoch : Z) (seen : Z) (total : Z) (percent : pyfloat) (loss : pyfloat)
| TestLine (avg_loss : pyfloat) (correct : Z) (length : pyfloat) (percent : pyfloat)
| ElapsedLine (seconds : pyfloat).

Inductive op : Type :=
| FETCH_BATCH (indices : list nat)
| ZERO_GRAD
| FORWARD
| COMPUTE_LOSS
| BACKWARD
| OPTIMIZER_STEP.

Inductive event : Type :=
| Getenv (key : string)
| Subprocess (cmd : string)
| InitProcessGroup (init_method : string) (rank world_size : Z)
| CudaInit
| SetDevice (local_rank : Z)
| LoadDataset (is_train : bool)
| BuildModel
| WrapDDP
| RecordEvent
| TrainOp (epoch : Z) (o : op)
| EvalOp (o : op)
| Print (line : console_line)
| Save (filename : string)
| DestroyProcessGroup.

(** ** The monad: a trace of events and a result or an exception *)

Definition W (A : Type) : Type := list event * (exn + A).

Definition ret {A} (a : A) : W A := ([], inr a).
Definition raise {A} (e : exn) : W A := ([], inl e).
Definition emit (ev : event) : W unit := ([ev], inr tt).

Definition bind {A B} (m : W A) (k : A → W B) : W B :=
  match m with
  | (tr, inl e) => (tr, inl e)
  | (tr, inr a) => let '(tr', r) := k a in (tr ++ tr', r)
  end.

Definition trace {A} (m : W A) : list event := m.1.
Definition outcome {A} (m : W A) : exn + A := m.2.

End Driver.

Declare Scope run_scope.
Delimit Scope run_scope with run.
Notation "x <- m ;; k" := (bind m (λ x, k))
  (at level 100, m at next level, right associativity) : run_scope.
Notation "m ;; k" := (bind m (λ _, k))
  (at level 100, right associativity) : run_scope.
Local Open Scope run_scope.

Section Program.
Context `{RT : Runtime}.

(** ** Datasets, the shard provider and the batch loader *)

(** A map-style dataset: [len(dataset)] and [dataset[i]], an image with its
    class. *)
Record Dataset : Type := {
  ds_len : nat;
  ds_getitem : nat → Image * Z;
}.

(** [l[start:stop:step]] for a positive step and non-negative bounds: the
    bounds are clipped to the length, the number of elements is computed
    first, then element [i] is [l[start + i*step]]. *)
Definition slice_len (len start stop step : nat) : nat :=
  let start := Nat.min start len in
  let stop := Nat.min stop len in
  if (start <? stop)%nat then ((stop - start - 1) / step + 1)%nat else 0%nat.

Definition slice (l : list nat) (start stop step : nat) : list nat :=
  (λ i, l !!! (Nat.min start (length l) + i * step)%nat)
    <$> seq 0 (slice_len (length l) start stop step).

(** [math.ceil(a / b)] on non-negative integers. *)
Definition ceil_div (a b : nat) : nat := ((a + b - 1) / b)%nat.

(** Modelled from the spec: the shard provider is
    [torch.utils.data.distributed.DistributedSampler], which the script
    imports and whose code is not under src/.  The record and [sampler_iter]
    follow section 4.3 (one partition per rank, padding needed for even
    division, reproducible from the sizes, the rank and the seed) in the way
    the sampler does it with the arguments the script passes: shuffling on,
    seed 0 unless given, epoch 0 until [set_epoch], no dropping of the tail. *)
Record DistributedSampler : Type := {
  s_len : nat;
  s_num_replicas : nat;
  s_rank : nat;
  s_epoch : Z;
  s_num_samples : nat;
  s_total_size : nat;
  s_seed : Z;
}.

Definition DistributedSampler_init (dataset : Dataset) (num_replicas rank : Z)
    (seed : Z) : exn + DistributedSampler :=
  if (rank >=? num_replicas) || (rank <? 0) then
    inl (ValueError "Invalid rank, rank should be in the interval [0, num_replicas - 1]")
  else
    let num_samples := ceil_div (ds_len dataset) (Z.to_nat num_replicas) in
    inr {| s_len := ds_len dataset;
           s_num_replicas := Z.to_nat num_replicas;
           s_rank := Z.to_nat rank;
           s_epoch := 0;
           s_num_samples := num_samples;
           s_total_size := (num_samples * Z.to_nat num_replicas)%nat;
           s_seed := seed |}.

Definition set_epoch (s : DistributedSampler) (epoch : Z) : DistributedSampler :=
  {| s_len := s_len s; s_num_replicas := s_num_replicas s; s_rank := s_rank s;
     s_epoch := epoch; s_num_samples := s_num_samples s;
     s_total_size := s_total_size s; s_seed := s_seed s |}.

(** The shuffled indices, padded to [total_size] by wrapping around. *)
Definition padded_indices (s : DistributedSampler) : list nat :=
  let indices := randperm (s_seed s + s_epoch s) (s_len s) in
  let padding_size := (s_total_size s - length indices)%nat in
  if (padding_size <=? length indices)%nat then
    indices ++ take padding_size indices
  else
    indices ++
      take padding_size
        (mjoin (replicate (ceil_div padding_size (length indices)) indices)).

(** [iter(sampler)]: every [num_replicas]-th index, starting at [rank]. *)
Definition sampler_iter (s : DistributedSampler) : list nat :=
  slice (padded_indices s) (s_rank s) (s_total_size s) (s_num_replicas s).

(** Modelled from the spec: [torch.utils.data.DataLoader] with a sampler is
    not under src/ either.  Section 4.3 has it group the indices of a
    partition sequentially into mini-batches; the last batch may be short. *)
Record DataLoader : Type := {
  dl_dataset : Dataset;
  dl_batch_size : nat;
  dl_sampler : DistributedSampler;
}.

Definition DataLoader_init (dataset : Dataset) (batch_size : Z)
    (sampler : DistributedSampler) : exn + DataLoader :=
  if batch_size <=? 0 then
    inl (ValueError "batch_size should be a positive integer value")
  else
    inr {| dl_dataset := dataset; dl_batch_size := Z.to_nat batch_size;
           dl_sampler := sampler |}.

Fixpoint batches_from (batch_size : nat) (batch : list nat) (l : list nat)
    : list (list nat) :=
  match l with
  | [] => match batch with [] => [] | _ => [reverse batch] end
  | idx :: l' =>
      let batch := idx :: batch in
      if (length batch =? batch_size)%nat
      then reverse batch :: batches_from batch_size [] l'
      else batches_from batch_size batch l'
  end.

(** [iter(loader)]: the batches of indices of one pass. *)
Definition loader_iter (dl : DataLoader) : list (list nat) :=
  batches_from (dl_batch_size dl) [] (sampler_iter (dl_sampler dl)).

(** [len(loader)]: the number of batches of one pass, hence at least one
    wherever the body of a loop over the loader runs. *)
Definition loader_len (dl : DataLoader) : nat := length (loader_iter dl).

(** The collated [(data, target)] of a batch of indices. *)
Definition collate (ds : Dataset) (idxs : list nat) : list Image * list Z :=
  ((λ i, (ds_getitem ds i).1) <$> idxs, (λ i, (ds_getitem ds i).2) <$> idxs).

(** ** The loss and the count of correct predictions *)

Definition fsum (l : list pyfloat) : pyfloat := foldl fadd (of_int 0) l.

(** [nn.CrossEntropyLoss()] as the script builds it, with the default
    reduction: the mean of the losses of the examples of the batch. *)
Definition criterion (output : list Logits) (target : list Z) : pyfloat :=
  fdiv (fsum (zip_with cross_entropy output target))
       (of_int (Z.of_nat (length output))).

(** [pred.eq(target.view_as(pred)).sum().item()] for [pred = output.argmax]. *)
Definition count_correct (output : list Logits) (target : list Z) : Z :=
  Z.of_nat (length (filter (λ p, argmax p.1 = p.2) (zip output target))).

(** ** Command line and world *)

(** The namespace [parser.parse_args()] returns. *)
Record Args : Type := {
  batch_size : Z;
  test_batch_size : Z;
  epochs : Z;
  lr : pyfloat;
  momentum : pyfloat;
  no_cuda : bool;
  seed : Z;
  log_interval : Z;
  save_model : bool;
  datasetDir : option string;
}.

(** What one process meets: [os.environ], whether the rendezvous of
    [init_process_group] succeeds, the MNIST split found under a directory
    (none when it is absent), the freshly built replica with its SGD
    optimizer, and the milliseconds between the two CUDA events; and whether
    the three calls after the loop return or raise: the query of the elapsed
    time, the write of [torch.save], and [destroy_process_group]. *)
Record World : Type := {
  environ : gmap string string;
  rendezvous_ok : bool;
  mnist : option string → bool → option Dataset;
  fresh_net : pyfloat → pyfloat → Net;
  elapsed_time : pyfloat;
  timing_ok : bool;
  save_ok : bool;
  cleanup_ok : bool;
}.

Definition getenv (w : World) (key : string) : W string :=
  emit (Getenv key) ;;
  match environ w !! key with
  | Some v => ret v
  | None => raise (KeyError key)
  end.

Definition int (s : string) : W Z :=
  match py_int s with
  | Some z => ret z
  | None => raise (ValueError s)
  end.

Definition lift {A} (r : exn + A) : W A := ([], r).

(** [a % b] on integers. *)
Definition py_mod (a b : Z) : W Z :=
  if b =? 0 then raise ZeroDivisionError else ret (a `mod` b).

(** [a / b] on integers and on floats. *)
Definition int_truediv (a b : Z) : W pyfloat :=
  if b =? 0 then raise ZeroDivisionError else ret (fdiv (of_int a) (of_int b)).

Definition float_truediv (x y : pyfloat) : W pyfloat :=
  if fis_zero y then raise ZeroDivisionError else ret (fdiv x y).

(** [range(a, b)]. *)
Definition py_range (a b : Z) : list Z :=
  (λ i, a + Z.of_nat i) <$> seq 0 (Z.to_nat (b - a)).

(** ** dist_init and cleanup *)

(** [init_process_group] returns once all ranks have joined, or raises; after
    it has returned the assertion on [is_initialized] holds.  The port is the
    default argument of the script, which [main] does not override.
    [cleanup] calls [destroy_process_group], which returns or raises. *)
Definition dist_init (w : World) (host_addr : string) (rank local_rank world_size : Z)
    (port : Z) : W unit :=
  let host_addr_full := ("tcp://" +:+ host_addr +:+ ":" +:+ pretty port)%string in
  emit (InitProcessGroup host_addr_full rank world_size) ;;
  (if rendezvous_ok w then ret tt
   else raise (RuntimeError "init_process_group")) ;;
  emit CudaInit ;;
  emit (SetDevice local_rank).

Definition cleanup (w : World) : W unit :=
  emit DestroyProcessGroup ;;
  if cleanup_ok w then ret tt else raise (RuntimeError "destroy_process_group").

(** ** train *)

(** The body of the loop over [enumerate(train_loader)]. *)
Definition train_batch (args : Args) (train_loader : DataLoader) (epoch rank : Z)
    (batch_idx : nat) (idxs : list nat) (model : Net) : W Net :=
  emit (TrainOp epoch (FETCH_BATCH idxs)) ;;
  let data := (collate (dl_dataset train_loader) idxs).1 in
  let target := (collate (dl_dataset train_loader) idxs).2 in
  emit (TrainOp epoch ZERO_GRAD) ;;
  let model := zero_grad model in
  emit (TrainOp epoch FORWARD) ;;
  let output := (forward model data).2 in
  let model := (forward model data).1 in
  emit (TrainOp epoch COMPUTE_LOSS) ;;
  let loss := criterion output target in
  emit (TrainOp epoch BACKWARD) ;;
  let model := all_reduce (backward model output target) in
  emit (TrainOp epoch OPTIMIZER_STEP) ;;
  let model := optimizer_step model in
  r <- py_mod (Z.of_nat batch_idx) (log_interval args) ;;
  (if (r =? 0) && (rank =? 0) then
     emit (Print (TrainLine epoch
                    (Z.of_nat batch_idx * Z.of_nat (length data))
                    (Z.of_nat (ds_len (dl_dataset train_loader)))
                    (fdiv (fmul (of_int 100) (of_int (Z.of_nat batch_idx)))
                          (of_int (Z.of_nat (loader_len train_loader))))
                    loss))
   else ret tt) ;;
  ret model.

Fixpoint train_loop (args : Args) (train_loader : DataLoader) (epoch rank : Z)
    (batch_idx : nat) (batches : list (list nat)) (model : Net) : W Net :=
  match batches with
  | [] => ret model
  | idxs :: batches' =>
      model <- train_batch args train_loader epoch rank batch_idx idxs model ;;
      train_loop args train_loader epoch rank (S batch_idx) batches' model
  end.

Definition train (args : Args) (model : Net) (local_rank : Z)
    (train_loader : DataLoader) (epoch rank : Z) : W Net :=
  let model := net_train model in
  train_loop args train_loader epoch rank 0 (loader_iter train_loader) model.

(** ** test *)

(** The locals of [test] that the loop updates. *)
Record EvalAcc : Type := {
  acc_model : Net;
  test_loss : pyfloat;
  correct : Z;
}.

Definition test_batch (test_loader : DataLoader) (idxs : list nat) (acc : EvalAcc)
    : W EvalAcc :=
  emit (EvalOp (FETCH_BATCH idxs)) ;;
  let data := (collate (dl_dataset test_loader) idxs).1 in
  let target := (collate (dl_dataset test_loader) idxs).2 in
  emit (EvalOp FORWARD) ;;
  let output := (forward (acc_model acc) data).2 in
  let model := (forward (acc_model acc) data).1 in
  emit (EvalOp COMPUTE_LOSS) ;;
  ret {| acc_model := model;
         test_loss := fadd (test_loss acc) (criterion output target);
         correct := correct acc + count_correct output target |}.

Fixpoint test_loop (test_loader : DataLoader) (batches : list (list nat))
    (acc : EvalAcc) : W EvalAcc :=
  match batches with
  | [] => ret acc
  | idxs :: batches' =>
      acc <- test_batch test_loader idxs acc ;;
      test_loop test_loader batches' acc
  end.

(** [test] returns nothing in the script; the embedding returns the locals
    as they are when the function ends, [test_loss] after its division. *)
Definition test (args : Args) (model : Net) (local_rank : Z)
    (test_loader : DataLoader) (world_size rank : Z) : W EvalAcc :=
  let model := net_eval model in
  length <- int_truediv (Z.of_nat (ds_len (dl_dataset test_loader))) world_size ;;
  acc <- test_loop test_loader (loader_iter test_loader)
           {| acc_model := model; test_loss := of_int 0; correct := 0 |} ;;
  avg <- float_truediv (test_loss acc) length ;;
  (if rank =? 0 then
     percent <- float_truediv (fmul (of_int 100) (of_int (correct acc))) length ;;
     emit (Print (TestLine avg (correct acc) length percent))
   else ret tt) ;;
  ret {| acc_model := acc_model acc; test_loss := avg; correct := correct acc |}.

(** ** main *)

(** [init_start_event.elapsed_time(init_end_event) / 1000]. *)
Definition elapsed_seconds (w : World) : W pyfloat :=
  if timing_ok w then ret (fdiv (elapsed_time w) (of_int 1000))
  else raise (RuntimeError "elapsed_time").

(** [torch.save(model.state_dict(), filename)]: the file is opened for
    writing, and the write returns or raises. *)
Definition torch_save (w : World) (filename : string) : W unit :=
  emit (Save filename) ;;
  if save_ok w then ret tt else raise (RuntimeError "torch.save").

Definition load_mnist (w : World) (dir : option string) (is_train : bool) : W Dataset :=
  emit (LoadDataset is_train) ;;
  match mnist w dir is_train with
  | Some ds => ret ds
  | None => raise (RuntimeError "Dataset not found")
  end.

(** One turn of [for epoch in range(1, args.epochs + 1)]. *)
Definition epoch_body (args : Args) (local_rank : Z)
    (train_loader test_loader : DataLoader) (world_size rank : Z)
    (epoch : Z) (model : Net) : W Net :=
  model <- train args model local_rank train_loader epoch rank ;;
  acc <- test args model local_rank test_loader world_size rank ;;
  ret (acc_model acc).

Fixpoint epoch_loop (args : Args) (local_rank : Z)
    (train_loader test_loader : DataLoader) (world_size rank : Z)
    (es : list Z) (model : Net) : W Net :=
  match es with
  | [] => ret model
  | epoch :: es' =>
      model <- epoch_body args local_rank train_loader test_loader
                 world_size rank epoch model ;;
      epoch_loop args local_rank train_loader test_loader world_size rank es' model
  end.

Definition main (args : Args) (w : World) : W unit :=
  (* Initialize process group *)
  rank_s <- getenv w "SLURM_PROCID" ;;
  rank <- int rank_s ;;
  local_rank_s <- getenv w "SLURM_LOCALID" ;;
  local_rank <- int local_rank_s ;;
  world_size_s <- getenv w "SLURM_NTASKS" ;;
  world_size <- int world_size_s ;;
  iplist <- getenv w "SLURM_JOB_NODELIST" ;;
  let cmd := ("scontrol show hostname " +:+ iplist +:+ " | head -n1")%string in
  emit (Subprocess cmd) ;;
  let ip := getoutput cmd in
  dist_init w ip rank local_rank world_size 23456 ;;
  (* Load MNIST dataset *)
  train_dataset <- load_mnist w (datasetDir args) true ;;
  train_sampler <- lift (DistributedSampler_init train_dataset world_size rank 0) ;;
  train_loader <- lift (DataLoader_init train_dataset (batch_size args) train_sampler) ;;
  test_dataset <- load_mnist w (datasetDir args) false ;;
  test_sampler <- lift (DistributedSampler_init test_dataset world_size rank 0) ;;
  test_loader <- lift (DataLoader_init test_dataset (test_batch_size args) test_sampler) ;;
  (* Create model and optimizer *)
  emit BuildModel ;;
  emit WrapDDP ;;
  let model := fresh_net w (lr args) (momentum args) in
  (* Train and test the model *)
  emit RecordEvent ;;
  model <- epoch_loop args local_rank train_loader test_loader world_size rank
             (py_range 1 (epochs args + 1)) model ;;
  emit RecordEvent ;;
  (if rank =? 0 then
     seconds <- elapsed_seconds w ;;
     emit (Print (ElapsedLine seconds))
   else ret tt) ;;
  (if save_model args then torch_save w "mnist_cnn.pt" else ret tt) ;;
  cleanup w.

(** The exit status of the interpreter: 0 when [main] returns, 1 when an
    exception leaves it. *)
Definition exit_status {A} (m : W A) : Z :=
  match outcome m with
  | inr _ => 0
  | inl _ => 1
  end.

(** What a process wrote on its console. *)
Definition console (tr : list event) : list console_line :=
  omap (λ ev, match ev with Print line => Some line | _ => None end) tr.

(** ** What is observed of a run *)

(** The rank of a process as [main] reads it. *)
Definition global_rank (w : World) : option Z :=
  environ w !! "SLURM_PROCID" ≫= py_int.

(** The files the process wrote with [torch.save]. *)
Definition saves (tr : list event) : list string :=
  omap (λ ev, match ev with Save f => Some f | _ => None end) tr.

Definition not_print (ev : event) : Prop :=
  match ev with Print _ => False | _ => True end.

Definition not_save (ev : event) : Prop :=
  match ev with Save _ => False | _ => True end.

(** The four values [main] reads from the scheduler, in the order it reads
    them. *)
Definition required_env : list string :=
  ["SLURM_PROCID"; "SLURM_LOCALID"; "SLURM_NTASKS"; "SLURM_JOB_NODELIST"].

(** The operations of training in a trace, each with its epoch. *)
Definition train_ops (tr : list event) : list (Z * op) :=
  omap (λ ev, match ev with TrainOp epoch o => Some (epoch, o) | _ => None end) tr.

(** The body of the training loop, as the script orders it. *)
Definition batch_ops (idxs : list nat) : list op :=
  [FETCH_BATCH idxs; ZERO_GRAD; FORWARD; COMPUTE_LOSS; BACKWARD; OPTIMIZER_STEP].

Definition epoch_ops (batches : list (list nat)) (epoch : Z) : list (Z * op) :=
  flat_map (λ idxs, pair epoch <$> batch_ops idxs) batches.

(** One turn of the loop of [test] on its locals. *)
Definition eval_step (test_loader : DataLoader) (acc : EvalAcc) (idxs : list nat)
    : EvalAcc :=
  let data := (collate (dl_dataset test_loader) idxs).1 in
  let target := (collate (dl_dataset test_loader) idxs).2 in
  let output := (forward (acc_model acc) data).2 in
  {| acc_model := (forward (acc_model acc) data).1;
     test_loss := fadd (test_loss acc) (criterion output target);
     correct := correct acc + count_correct output target |}.

Definition eval_ops (batches : list (list nat)) : list event :=
  flat_map (λ idxs, EvalOp <$> [FETCH_BATCH idxs; FORWARD; COMPUTE_LOSS]) batches.

(** [len(test_loader.dataset)/world_size], the [length] of [test]. *)
Definition expected_shard_size (test_loader : DataLoader) (world_size : Z) : pyfloat :=
  fdiv (of_int (Z.of_nat (ds_len (dl_dataset test_loader)))) (of_int world_size).

Definition eval_start (model : Net) : EvalAcc :=
  {| acc_model := net_eval model; test_loss := of_int 0; correct := 0 |}.

(** The five states of section 4.5; [optimizer.zero_grad()] is not one. *)
Definition is_state (o : op) : bool :=
  match o with ZERO_GRAD => false | _ => true end.

Definition state_sequence (tr : list event) : list (Z * op) :=
  filter (λ p, is_state p.2) (train_ops tr).

Definition batch_states (idxs : list nat) : list op :=
  [FETCH_BATCH idxs; FORWARD; COMPUTE_LOSS; BACKWARD; OPTIMIZER_STEP].

(** The batches of indices fetched for training in a given epoch. *)
Definition epoch_batches (epoch : Z) (tr : list event) : list (list nat) :=
  omap (λ ev, match ev with
              | TrainOp epoch' (FETCH_BATCH idxs) =>
                  if decide (epoch' = epoch) then Some idxs else None
              | _ => None
              end) tr.

Definition fetched (epoch : Z) (p : Z * op) : option (list nat) :=
  match p.2 with
  | FETCH_BATCH idxs => if decide (p.1 = epoch) then Some idxs else None
  | _ => None
  end.

(** The output and the target of every batch of a pass of [test], with the
    replica threaded through the forward calls. *)
Fixpoint eval_outputs (test_loader : DataLoader) (model : Net)
    (batches : list (list nat)) : list (list Logits * list Z) :=
  match batches with
  | [] => []
  | idxs :: batches' =>
      let data := (collate (dl_dataset test_loader) idxs).1 in
      let target := (collate (dl_dataset test_loader) idxs).2 in
      ((forward model data).2, target)
        :: eval_outputs test_loader (forward model data).1 batches'
  end.

(** The losses of the examples of a batch, and their mean. *)
Definition example_losses (p : list Logits * list Z) : list pyfloat :=
  zip_with cross_entropy p.1 p.2.

Definition batch_mean (p : list Logits * list Z) : pyfloat :=
  fdiv (fsum (example_losses p)) (of_int (Z.of_nat (length p.1))).

(** The mean loss over all examples the rank evaluated. *)
Definition per_example_mean (test_loader : DataLoader) (model : Net) : pyfloat :=
  let losses :=
    mjoin (example_losses
             <$> eval_outputs test_loader (net_eval model) (loader_iter test_loader)) in
  fdiv (fsum losses) (of_int (Z.of_nat (length losses))).

Definition unequal_batches (batches : list (list nat)) : Prop :=
  ∃ b1 b2, b1 ∈ batches ∧ b2 ∈ batches ∧ length b1 ≠ length b2.

(** The index sequence of rank [R] out of [W] over dataset [d], as [main]
    obtains it: build the sampler, iterate it. *)
Definition shard (d : Dataset) (W seed R : Z) : list nat :=
  match DistributedSampler_init d W R seed with
  | inr s => sampler_iter s
  | inl _ => []
  end.

(** The entries of the shard that come from the permutation itself (drawn
    for the epoch 0 of a fresh sampler), and not from the padding appended to
    it. *)
Definition shard_core (d : Dataset) (W seed R : Z) : list nat :=
  slice (randperm (seed + 0) (ds_len d)) (Z.to_nat R) (ds_len d) (Z.to_nat W).

End Program.

(** * A small runtime, to run the script on *)

(** Exact rational arithmetic for the floats; the decimal digits for
    [int()]; a rotation by the seed for [randperm]; a replica that counts its
    optimizer steps and returns every image as its own output row, the loss of
    an example being that number. *)

Fixpoint toy_digits (s : string) (acc : Z) : option Z :=
  match s with
  | EmptyString => Some acc
  | String c s' =>
      let n := (Z.of_nat (Ascii.nat_of_ascii c) - 48)%Z in
      if (0 <=? n)%Z && (n <=? 9)%Z then toy_digits s' (10 * acc + n)%Z else None
  end.

Definition toy_int (s : string) : option Z :=
  match s with
  | EmptyString => None
  | _ => toy_digits s 0
  end.

Definition toy : Runtime := {|
  pyfloat := Q;
  of_int := inject_Z;
  fadd x y := Qred (x + y);
  fmul x y := Qred (x * y);
  fdiv x y := Qred (x / y);
  fis_zero x := Qeq_bool x 0;
  py_int := toy_int;
  getoutput cmd := "node0";
  randperm g n := rotate (Z.to_nat g) (seq 0 n);
  Image := Q;
  Logits := Q;
  Net := nat;
  net_train n := n;
  net_eval n := n;
  zero_grad n := n;
  forward n data := (n, data);
  cross_entropy l _ := l;
  backward n _ _ := n;
  all_reduce n := n;
  optimizer_step n := S n;
  argmax _ := 0%Z;
|}.

Section Toy.
#[local] Existing Instance toy.

(** Ten examples; the loss of example 8 is 4, of every other one 1. *)
Definition toy_dataset : Dataset :=
  {| ds_len := 10; ds_getitem i := (if (i =? 8)%nat then 4%Q else 1%Q, 0%Z) |}.

Definition toy_args (n_epochs : Z) (save : bool) : Args :=
  {| batch_size := 2; test_batch_size := 2; epochs := n_epochs;
     lr := 1 # 100; momentum := 1 # 2; no_cuda := false; seed := 1;
     log_interval := 1; save_model := save; datasetDir := Some "data" |}.

(** The process of rank [r] in a job of four on one node. *)
Definition toy_world (r : string) : World :=
  {| environ :=
       <["SLURM_PROCID" := r]>
         (<["SLURM_LOCALID" := r]>
            (<["SLURM_NTASKS" := "4"]>
               (<["SLURM_JOB_NODELIST" := "node[0-1]"]> ∅)));
     rendezvous_ok := true;
     mnist dir is_train := Some toy_dataset;
     fresh_net _ _ := 0%nat;
     elapsed_time := 1500%Q;
     timing_ok := true; save_ok := true; cleanup_ok := true |}.

Definition toy_sampler (r : Z) : DistributedSampler :=
  {| s_len := 10; s_num_replicas := 4; s_rank := Z.to_nat r; s_epoch := 0;
     s_num_samples := 3; s_total_size := 12; s_seed := 0 |}.

Definition toy_loader (r : Z) : DataLoader :=
  {| dl_dataset := toy_dataset; dl_batch_size := 2; dl_sampler := toy_sampler r |}.

(** The same process with the rank missing from its environment. *)
Definition toy_world_no_rank : World :=
  {| environ :=
       <["SLURM_LOCALID" := "1"]>
         (<["SLURM_NTASKS" := "4"]>
            (<["SLURM_JOB_NODELIST" := "node[0-1]"]> ∅));
     rendezvous_ok := true;
     mnist dir is_train := Some toy_dataset;
     fresh_net _ _ := 0%nat;
     elapsed_time := 1500%Q;
     timing_ok := true; save_ok := true; cleanup_ok := true |}.

(** Another dataset of ten examples. *)
Definition toy_dataset' : Dataset :=
  {| ds_len := 10; ds_getitem i := (inject_Z (Z.of_nat i), 1%Z) |}.

End Toy.

(** * Phases of a run *)

Section Phases.
Context `{RT : Runtime}.

(** What [main] does before the first epoch: the reads of the environment,
    the shell command, the rendezvous, the device, the datasets, the model and
    the timing events. *)
Definition setup_event (ev : event) : Prop :=
  match ev with
  | Getenv _ | Subprocess _ | InitProcessGroup _ _ _ | CudaInit | SetDevice _
  | LoadDataset _ | BuildModel | WrapDDP | RecordEvent => True
  | _ => False
  end.

(** What [main] does up to and including the call of [init_process_group]. *)
Definition rendezvous_event (ev : event) : Prop :=
  match ev with
  | Getenv _ | Subprocess _ | InitProcessGroup _ _ _ => True
  | _ => False
  end.

(** What the loop over the epochs does: operations of [train] and [test] and
    their two kinds of lines. *)
Definition loop_event (ev : event) : Prop :=
  match ev with
  | TrainOp _ _ | EvalOp _ | Print (TrainLine _ _ _ _ _) | Print (TestLine _ _ _ _) => True
  | _ => False
  end.

Definition outside_loop (ev : event) : Prop :=
  match ev with
  | TrainOp _ _ | EvalOp _ | Print (TrainLine _ _ _ _ _) | Print (TestLine _ _ _ _) => False
  | _ => True
  end.

(** What a pass of [train] for a given epoch does. *)
Definition train_event (epoch : Z) (ev : event) : Prop :=
  match ev with
  | TrainOp epoch' _ => epoch' = epoch
  | Print (TrainLine epoch' _ _ _ _) => epoch' = epoch
  | _ => False
  end.

(** What a pass of [test] does: fetch, forward, loss, and its one line. *)
Definition eval_event (ev : event) : Prop :=
  match ev with
  | EvalOp (FETCH_BATCH _) | EvalOp FORWARD | EvalOp COMPUTE_LOSS
  | Print (TestLine _ _ _ _) => True
  | _ => False
  end.

Definition is_test_line (line : console_line) : bool :=
  match line with TestLine _ _ _ _ => true | _ => false end.

(** The world size of a job as [main] reads it. *)
Definition job_size (w : World) : option Z :=
  environ w !! "SLURM_NTASKS" ≫= py_int.

Definition not_destroy (ev : event) : Prop :=
  match ev with DestroyProcessGroup => False | _ => True end.

(** The three values of the environment that [main] passes to [int]. *)
Definition integer_env : list string :=
  ["SLURM_PROCID"; "SLURM_LOCALID"; "SLURM_NTASKS"].

(** [batch_idx % log_interval == 0], for a non-zero interval. *)
Definition logged (interval : Z) (batch_idx : nat) : bool :=
  Z.of_nat batch_idx `mod` interval =? 0.

(** The same arguments with another [--seed] and [--no-cuda]. *)
Definition with_seed_no_cuda (args : Args) (s : Z) (b : bool) : Args :=
  {| batch_size := batch_size args; test_batch_size := test_batch_size args;
     epochs := epochs args; lr := lr args; momentum := momentum args;
     no_cuda := b; seed := s; log_interval := log_interval args;
     save_model := save_model args; datasetDir := datasetDir args |}.

(** The line [train] prints for a batch. *)
Definition train_line (train_loader : DataLoader) (epoch : Z) (batch_idx : nat)
    (idxs : list nat) (loss : pyfloat) : console_line :=
  TrainLine epoch
    (Z.of_nat batch_idx * Z.of_nat (length idxs))
    (Z.of_nat (ds_len (dl_dataset train_loader)))
    (fdiv (fmul (of_int 100) (of_int (Z.of_nat batch_idx)))
          (of_int (Z.of_nat (loader_len train_loader))))
    loss.

(** The batches of indices fetched for evaluation in a run. *)
Definition eval_fetches (tr : list event) : list (list nat) :=
  omap (λ ev, match ev with EvalOp (FETCH_BATCH idxs) => Some idxs | _ => None end) tr.

(** The sampler [DistributedSampler_init] builds for a dataset of [N]
    entries: nothing of the dataset but its size is kept. *)
Definition sampler_for (N : nat) (W R seed : Z) : DistributedSampler :=
  {| s_len := N;
     s_num_replicas := Z.to_nat W;
     s_rank := Z.to_nat R;
     s_epoch := 0;
     s_num_samples := ceil_div N (Z.to_nat W);
     s_total_size := (ceil_div N (Z.to_nat W) * Z.to_nat W)%nat;
     s_seed := seed |}.

(** ** The replica through the loops *)

(** The loss of a batch, computed on the output of the forward pass of the
    replica with its gradients cleared. *)
Definition batch_loss (train_loader : DataLoader) (model : Net) (idxs : list nat)
    : pyfloat :=
  let data := (collate (dl_dataset train_loader) idxs).1 in
  let target := (collate (dl_dataset train_loader) idxs).2 in
  criterion (forward (zero_grad model) data).2 target.

(** The replica after the body of the training loop on one batch: gradients
    cleared, forward, backward on the output of that forward pass, the
    gradients averaged over the ranks, and only then the optimizer step. *)
Definition train_step (train_loader : DataLoader) (model : Net) (idxs : list nat)
    : Net :=
  let data := (collate (dl_dataset train_loader) idxs).1 in
  let target := (collate (dl_dataset train_loader) idxs).2 in
  let model := zero_grad model in
  let output := (forward model data).2 in
  let model := (forward model data).1 in
  optimizer_step (all_reduce (backward model output target)).

(** The replica after a pass of [train]: training mode, then one step per
    batch of the loader, in its order. *)
Definition train_pass (train_loader : DataLoader) (model : Net) : Net :=
  foldl (train_step train_loader) (net_train model) (loader_iter train_loader).

(** The replica after the forward pass of one batch of [test]. *)
Definition forward_only (test_loader : DataLoader) (model : Net) (idxs : list nat)
    : Net :=
  (forward model (collate (dl_dataset test_loader) idxs).1).1.

(** The replica after a pass of [test]: evaluation mode, then forward passes
    only. *)
Definition eval_pass (test_loader : DataLoader) (model : Net) : Net :=
  foldl (forward_only test_loader) (net_eval model) (loader_iter test_loader).

(** The replica after one epoch: [train], then [test]. *)
Definition epoch_pass (train_loader test_loader : DataLoader) (model : Net) : Net :=
  eval_pass test_loader (train_pass train_loader model).

(** The losses of the batches of a pass of [train], each computed on the
    replica as the steps before it have left it. *)
Fixpoint train_losses (train_loader : DataLoader) (model : Net)
    (batches : list (list nat)) : list pyfloat :=
  match batches with
  | [] => []
  | idxs :: batches' =>
      batch_loss train_loader model idxs
        :: train_losses train_loader (train_step train_loader model idxs) batches'
  end.

(** The batches of a pass of [train], each with its index and its loss. *)
Definition train_log (train_loader : DataLoader) (model : Net)
    (batches : list (list nat)) : list (nat * list nat * pyfloat) :=
  zip (zip (seq 0 (length batches)) batches) (train_losses train_loader model batches).

(** What [main] does after the loop over the epochs: the second timing
    event, the elapsed time on the coordinator, the checkpoint when asked
    for, and [cleanup]. *)
Definition closing (args : Args) (w : World) (rank : Z) : list event :=
  [RecordEvent]
    ++ (if rank =? 0
        then [Print (ElapsedLine (fdiv (elapsed_time w) (of_int 1000)))] else [])
    ++ (if save_model args then [Save "mnist_cnn.pt"] else [])
    ++ [DestroyProcessGroup].

End Phases.

Section ToyFurther.
#[local] Existing Instance toy.

(** The arguments of [toy_args] with a given log interval. *)
Definition toy_args_interval (interval : Z) (save : bool) : Args :=
  {| batch_size := 2; test_batch_size := 2; epochs := 2;
     lr := 1 # 100; momentum := 1 # 2; no_cuda := false; seed := 1;
     log_interval := interval; save_model := save; datasetDir := Some "data" |}.

(** Rank 1 of four when the rendezvous fails. *)
Definition toy_world_unreachable : World :=
  {| environ := environ (toy_world "1");
     rendezvous_ok := false;
     mnist dir is_train := Some toy_dataset;
     fresh_net _ _ := 0%nat;
     elapsed_time := 1500%Q;
     timing_ok := true; save_ok := true; cleanup_ok := true |}.

(** Rank 1 of four when the checkpoint cannot be written. *)
Definition toy_world_disk_full : World :=
  {| environ := environ (toy_world "1");
     rendezvous_ok := true;
     mnist dir is_train := Some toy_dataset;
     fresh_net _ _ := 0%nat;
     elapsed_time := 1500%Q;
     timing_ok := true; save_ok := false; cleanup_ok := true |}.

(** An empty evaluation set and its loader on rank 0 of four. *)
(** Another job of four, over another dataset of ten examples, from another
    initial model and with other arguments. *)
Definition toy_world_other (r : string) : World :=
  {| environ :=
       <["SLURM_PROCID" := r]>
         (<["SLURM_LOCALID" := "0"]>
            (<["SLURM_NTASKS" := "4"]>
               (<["SLURM_JOB_NODELIST" := "gpu7"]> ∅)));
     rendezvous_ok := true;
     mnist dir is_train := Some toy_dataset';
     fresh_net _ _ := 5%nat;
     elapsed_time := 20%Q;
     timing_ok := true; save_ok := true; cleanup_ok := true |}.

Definition toy_args_other : Args :=
  {| batch_size := 3; test_batch_size := 1; epochs := 1;
     lr := 1 # 2; momentum := 0%Q; no_cuda := true; seed := 7;
     log_interval := 5; save_model := true; datasetDir := None |}.

Definition toy_empty_dataset : Dataset :=
  {| ds_len := 0; ds_getitem i := (0%Q, 0%Z) |}.

Definition toy_empty_loader : DataLoader :=
  {| dl_dataset := toy_empty_dataset; dl_batch_size := 2;
     dl_sampler := {| s_len := 0; s_num_replicas := 4; s_rank := 0; s_epoch := 0;
                      s_num_samples := 0; s_total_size := 0; s_seed := 0 |} |}.

End ToyFurther.

(** * Facts about the monad *)

Section MonadFacts.
Context `{RT : Runtime}.

Lemma bind_inr {A B} (m : W A) (k : A → W B) (a : A) :
  outcome m = inr a →
  bind m k = (trace m ++ trace (k a), outcome (k a)).
Proof.
  destruct m as [tr [e|a']]; simpl; intros Ha; [discriminate|].
  injection Ha as ->. unfold bind. by destruct (k a).
Qed.

Lemma bind_inl {A B} (m : W A) (k : A → W B) (e : exn) :
  outcome m = inl e → bind m k = (trace m, inl e).
Proof. destruct m as [tr [e'|a]]; simpl; intros He; by simplify_eq. Qed.

Lemma trace_bind_inr {A B} (m : W A) (k : A → W B) (a : A) :
  outcome m = inr a → trace (bind m k) = trace m ++ trace (k a).
Proof. intros Ha. by rewrite (bind_inr _ _ _ Ha). Qed.

Lemma outcome_bind_inr {A B} (m : W A) (k : A → W B) (a : A) :
  outcome m = inr a → outcome (bind m k) = outcome (k a).
Proof. intros Ha. by rewrite (bind_inr _ _ _ Ha). Qed.

(** A property of all events of a computation is established piecewise. *)
Lemma bind_inr_inv {A B} (m : W A) (k : A → W B) (b : B) :
  outcome (bind m k) = inr b → ∃ a, outcome m = inr a ∧ outcome (k a) = inr b.
Proof.
  destruct m as [tr [e|a]]; simpl; [done|]. intros Hb. exists a. split; [done|].
  by destruct (k a).
Qed.

Lemma Forall_trace_bind {A B} (P : event → Prop) (m : W A) (k : A → W B) :
  Forall P (trace m) → (∀ a, outcome m = inr a → Forall P (trace (k a))) →
  Forall P (trace (bind m k)).
Proof.
  intros Hm Hk. destruct m as [tr [e|a]]; simpl in *; [done|].
  specialize (Hk a eq_refl). destruct (k a) as [tr' r]. simpl in *.
  by apply Forall_app.
Qed.

Lemma Forall_trace_ret {A} (P : event → Prop) (a : A) : Forall P (trace (ret a)).
Proof. constructor. Qed.

Lemma Forall_trace_raise {A} (P : event → Prop) (e : exn) :
  Forall P (trace (raise (A:=A) e)).
Proof. constructor. Qed.

Lemma Forall_trace_lift {A} (P : event → Prop) (r : exn + A) :
  Forall P (trace (lift r)).
Proof. constructor. Qed.

Lemma Forall_trace_emit (P : event → Prop) (ev : event) :
  P ev → Forall P (trace (emit ev)).
Proof. intros. by repeat constructor. Qed.

Lemma Forall_trace_if {A} (P : event → Prop) (b : bool) (m1 m2 : W A) :
  Forall P (trace m1) → Forall P (trace m2) →
  Forall P (trace (if b then m1 else m2)).
Proof. by destruct b. Qed.

End MonadFacts.

(** [quiet] walks through a computation and leaves one goal for every
    event it can emit. *)
Ltac quiet :=
  repeat first
    [ apply Forall_nil_2
    | apply Forall_trace_ret
    | apply Forall_trace_raise
    | apply Forall_trace_lift
    | apply Forall_trace_emit
    | apply Forall_trace_bind; [|intros ? ?]
    | match goal with
      | H : ?b = false |- context [if _ && ?b then _ else _] =>
          rewrite H, andb_false_r
      | H : ?b = _ |- context [if ?b then _ else _] => rewrite H
      end
    | apply Forall_trace_if
    | match goal with |- Forall _ (trace (match ?x with _ => _ end)) => destruct x end ].

(** * Who writes: the console and the checkpoint *)

Section Output.
Context `{RT : Runtime}.

Lemma console_no_print (tr : list event) : Forall not_print tr → console tr = [].
Proof.
  induction 1 as [|ev tr Hev _ IH]; [done|].
  unfold console in *. by destruct ev.
Qed.

Lemma saves_no_save (tr : list event) : Forall not_save tr → saves tr = [].
Proof.
  induction 1 as [|ev tr Hev _ IH]; [done|].
  unfold saves in *. by destruct ev.
Qed.

Lemma console_app (tr1 tr2 : list event) :
  console (tr1 ++ tr2) = console tr1 ++ console tr2.
Proof. apply omap_app. Qed.

Lemma saves_app (tr1 tr2 : list event) : saves (tr1 ++ tr2) = saves tr1 ++ saves tr2.
Proof. apply omap_app. Qed.

(** Off the coordinator, [train] and [test] print nothing. *)
Lemma train_loop_silent args loader epoch rank batch_idx batches model :
  rank ≠ 0 →
  Forall not_print (trace (train_loop args loader epoch rank batch_idx batches model)).
Proof.
  intros Hrank%Z.eqb_neq. revert batch_idx model.
  induction batches as [|idxs batches IH]; intros batch_idx model; cbn [train_loop].
  - quiet.
  - apply Forall_trace_bind; [|intros ? _; apply IH].
    unfold train_batch, py_mod. quiet; exact I.
Qed.

Lemma test_loop_silent loader batches acc :
  Forall not_print (trace (test_loop loader batches acc)).
Proof.
  revert acc. induction batches as [|idxs batches IH]; intros acc; cbn [test_loop].
  - quiet.
  - apply Forall_trace_bind; [|intros ? _; apply IH].
    unfold test_batch. quiet; exact I.
Qed.

Lemma test_silent args model local_rank loader world_size rank :
  rank ≠ 0 →
  Forall not_print (trace (test args model local_rank loader world_size rank)).
Proof.
  intros Hrank%Z.eqb_neq.
  unfold test, int_truediv, float_truediv.
  apply Forall_trace_bind; [quiet|intros ? _].
  apply Forall_trace_bind; [apply test_loop_silent|intros ? _].
  quiet.
Qed.

Lemma epoch_loop_silent args local_rank train_loader test_loader world_size rank es model :
  rank ≠ 0 →
  Forall not_print
    (trace (epoch_loop args local_rank train_loader test_loader world_size rank es model)).
Proof.
  intros Hrank. revert model.
  induction es as [|epoch es IH]; intros model; cbn [epoch_loop].
  - quiet.
  - apply Forall_trace_bind; [|intros ? _; apply IH].
    unfold epoch_body.
    apply Forall_trace_bind; [by apply train_loop_silent|intros ? _].
    apply Forall_trace_bind; [by apply test_silent|intros ? _]. quiet.
Qed.

Lemma getenv_inr w key v :
  outcome (getenv w key) = inr v → environ w !! key = Some v.
Proof.
  unfold getenv. intros (_ & _ & H)%bind_inr_inv.
  destruct (environ w !! key); simpl in H; by simplify_eq.
Qed.

Lemma int_inr s z : outcome (int s) = inr z → py_int s = Some z.
Proof. unfold int. destruct (py_int s); simpl; intros; by simplify_eq. Qed.

Lemma torch_save_inr w filename a :
  outcome (torch_save w filename) = inr a →
  trace (torch_save w filename) = [Save filename].
Proof. unfold torch_save. by destruct (save_ok w). Qed.

Lemma trace_cleanup w : trace (cleanup w) = [DestroyProcessGroup].
Proof. unfold cleanup. by destruct (cleanup_ok w). Qed.

Lemma elapsed_seconds_inr w t :
  outcome (elapsed_seconds w) = inr t →
  elapsed_seconds w = ([], inr (fdiv (elapsed_time w) (of_int 1000))).
Proof. unfold elapsed_seconds. by destruct (timing_ok w). Qed.

Lemma main_silent args w :
  global_rank w ≠ Some 0 → Forall not_print (trace (main args w)).
Proof.
  intros Hrank. unfold main.
  apply Forall_trace_bind; [unfold getenv; quiet; exact I|intros rank_s Hs%getenv_inr].
  apply Forall_trace_bind; [unfold int; quiet|intros rank Hr%int_inr].
  assert ((rank =? 0) = false) as Hne.
  { apply Z.eqb_neq. intros ->. apply Hrank. unfold global_rank. by rewrite Hs. }
  unfold getenv, int, dist_init, load_mnist, cleanup.
  quiet; try exact I.
  apply epoch_loop_silent. by apply Z.eqb_neq.
Qed.

Lemma epoch_loop_no_save args local_rank train_loader test_loader world_size rank es model :
  Forall not_save
    (trace (epoch_loop args local_rank train_loader test_loader world_size rank es model)).
Proof.
  revert model. induction es as [|epoch es IH]; intros model; cbn [epoch_loop].
  { quiet. }
  apply Forall_trace_bind; [|intros ? _; apply IH].
  unfold epoch_body, train, test, int_truediv, float_truediv.
  apply Forall_trace_bind; [|intros ? _].
  - generalize (net_train model) as net. generalize O as batch_idx.
    induction (loader_iter train_loader) as [|idxs bs IHbs];
      intros batch_idx net; cbn [train_loop]; [quiet|].
    apply Forall_trace_bind; [|intros ? _; apply IHbs].
    unfold train_batch, py_mod. quiet; exact I.
  - apply Forall_trace_bind; [|intros ? _; quiet].
    apply Forall_trace_bind; [quiet|intros ? _].
    apply Forall_trace_bind; [|intros ? _; quiet; exact I].
    generalize ({| acc_model := net_eval a; test_loss := of_int 0; correct := 0 |}) as acc.
    induction (loader_iter test_loader) as [|idxs bs IHbs];
      intros acc; cbn [test_loop]; [quiet|].
    apply Forall_trace_bind; [|intros ? _; apply IHbs].
    unfold test_batch. quiet; exact I.
Qed.

Lemma main_no_save args w :
  save_model args = false → Forall not_save (trace (main args w)).
Proof.
  intros Hflag. unfold main, getenv, int, dist_init, load_mnist, cleanup.
  quiet; try exact I.
  apply epoch_loop_no_save.
Qed.

(** C2. Only the process with global rank 0 writes on the console: on every
    other rank (and on a process that cannot even read its rank) [main]
    prints no training line, no evaluation line and no elapsed-time line,
    whatever the arguments and the world are. *)
Theorem only_coordinator_prints (args : Args) (w : World) :
  global_rank w ≠ Some 0 → console (trace (main args w)) = [].
Proof. intros Hrank. by apply console_no_print, main_silent. Qed.

(** C8. When the save-model flag is unset, [main] writes no parameter file,
    for every epoch count (zero and above, and below), on every rank and
    whether or not the job runs to its end. *)
Theorem no_flag_no_checkpoint (args : Args) (w : World) :
  save_model args = false → saves (trace (main args w)) = [].
Proof. intros Hflag. by apply saves_no_save, main_no_save. Qed.

End Output.

(** * Start-up: the environment *)

Section Startup.
Context `{RT : Runtime}.

Lemma prefix_of_required (n : nat) :
  take n (Getenv <$> required_env) `prefix_of` (Getenv <$> required_env).
Proof. apply prefix_take. Qed.

(** C5. If one of the four scheduler values is missing from the environment,
    [main] ends with an exception, hence with a non-zero exit status; all it
    has done by then is to read environment values, each at most once and in
    the order of the script (no second attempt), so no process group, no
    dataset, no model, and nothing on the console. *)
Theorem missing_env_fails_fast (args : Args) (w : World) (key : string) :
  key ∈ required_env → environ w !! key = None →
  exit_status (main args w) ≠ 0 ∧
  trace (main args w) `prefix_of` (Getenv <$> required_env) ∧
  console (trace (main args w)) = [].
Proof.
  intros Hkey Hnone. unfold main, getenv, int.
  destruct (environ w !! "SLURM_PROCID") as [s1|] eqn:E1; cbn;
    [destruct (py_int s1) as [rank|]; cbn|];
    [|split_and!; [done|apply (prefix_of_required 1)|done]..].
  destruct (environ w !! "SLURM_LOCALID") as [s2|] eqn:E2; cbn;
    [destruct (py_int s2) as [local_rank|]; cbn|];
    [|split_and!; [done|apply (prefix_of_required 2)|done]..].
  destruct (environ w !! "SLURM_NTASKS") as [s3|] eqn:E3; cbn;
    [destruct (py_int s3) as [world_size|]; cbn|];
    [|split_and!; [done|apply (prefix_of_required 3)|done]..].
  destruct (environ w !! "SLURM_JOB_NODELIST") as [s4|] eqn:E4; cbn;
    [|split_and!; [done|apply (prefix_of_required 4)|done]].
  exfalso. unfold required_env in Hkey.
  repeat (apply elem_of_cons in Hkey as [->|Hkey]; [congruence|]).
  by apply elem_of_nil in Hkey.
Qed.

End Startup.

(** * The loops: what a pass of [train], of [test] and of the epochs does *)

Section Loops.
Context `{RT : Runtime}.

Lemma train_ops_app (tr1 tr2 : list event) :
  train_ops (tr1 ++ tr2) = train_ops tr1 ++ train_ops tr2.
Proof. apply omap_app. Qed.

Lemma train_batch_run args loader epoch rank batch_idx idxs model :
  log_interval args ≠ 0 →
  ∃ model',
    outcome (train_batch args loader epoch rank batch_idx idxs model) = inr model' ∧
    train_ops (trace (train_batch args loader epoch rank batch_idx idxs model))
    = pair epoch <$> batch_ops idxs.
Proof.
  intros Hlog%Z.eqb_neq. unfold train_batch, py_mod. rewrite Hlog.
  destruct ((Z.of_nat batch_idx `mod` log_interval args =? 0) && (rank =? 0)) eqn:Hif;
    cbn; rewrite Hif; cbn; eauto.
Qed.

Lemma train_loop_run args loader epoch rank batch_idx batches model :
  log_interval args ≠ 0 →
  ∃ model',
    outcome (train_loop args loader epoch rank batch_idx batches model) = inr model' ∧
    train_ops (trace (train_loop args loader epoch rank batch_idx batches model))
    = epoch_ops batches epoch.
Proof.
  intros Hlog. revert batch_idx model.
  induction batches as [|idxs batches IH]; intros batch_idx model; cbn [train_loop].
  { by exists model. }
  destruct (train_batch_run args loader epoch rank batch_idx idxs model Hlog)
    as (model1 & Hout1 & Hops1).
  destruct (IH (S batch_idx) model1) as (model2 & Hout2 & Hops2).
  exists model2. rewrite (bind_inr _ _ _ Hout1). split; [done|].
  unfold trace at 1. cbn [fst]. rewrite train_ops_app, Hops1, Hops2.
  by unfold epoch_ops.
Qed.

Lemma test_loop_run loader batches acc :
  test_loop loader batches acc
  = (eval_ops batches, inr (foldl (eval_step loader) acc batches)).
Proof.
  revert acc. induction batches as [|idxs batches IH]; intros acc; cbn [test_loop].
  { done. }
  unfold test_batch. cbn. rewrite IH. done.
Qed.

Lemma test_run args model local_rank loader world_size rank :
  world_size ≠ 0 →
  fis_zero (expected_shard_size loader world_size) = false →
  let length := expected_shard_size loader world_size in
  let acc := foldl (eval_step loader) (eval_start model) (loader_iter loader) in
  let avg := fdiv (test_loss acc) length in
  test args model local_rank loader world_size rank
  = (eval_ops (loader_iter loader) ++
       (if rank =? 0
        then [Print (TestLine avg (correct acc) length
                       (fdiv (fmul (of_int 100) (of_int (correct acc))) length))]
        else []),
     inr {| acc_model := acc_model acc; test_loss := avg; correct := correct acc |}).
Proof.
  intros HW%Z.eqb_neq Hlen. unfold test, int_truediv, float_truediv.
  rewrite HW. rewrite test_loop_run. unfold expected_shard_size in *.
  cbn. rewrite Hlen. destruct (rank =? 0); cbn; rewrite ?Hlen; cbn;
    by rewrite ?app_nil_r.
Qed.

Lemma train_ops_eval_ops (batches : list (list nat)) : train_ops (eval_ops batches) = [].
Proof. induction batches as [|idxs batches IH]; [done|]. exact IH. Qed.

Lemma epoch_body_run args local_rank train_loader test_loader world_size rank epoch model :
  log_interval args ≠ 0 → world_size ≠ 0 →
  fis_zero (expected_shard_size test_loader world_size) = false →
  ∃ model',
    outcome (epoch_body args local_rank train_loader test_loader world_size rank
               epoch model) = inr model' ∧
    train_ops (trace (epoch_body args local_rank train_loader test_loader world_size
                        rank epoch model))
    = epoch_ops (loader_iter train_loader) epoch.
Proof.
  intros Hlog HW Hlen. unfold epoch_body, train.
  destruct (train_loop_run args train_loader epoch rank 0 (loader_iter train_loader)
              (net_train model) Hlog) as (model1 & Hout1 & Hops1).
  rewrite (bind_inr _ _ _ Hout1).
  rewrite (test_run args model1 local_rank test_loader world_size rank HW Hlen).
  cbn -[train_ops]. eexists. split; [done|].
  rewrite !train_ops_app, Hops1, train_ops_eval_ops.
  destruct (rank =? 0); cbn; by rewrite ?app_nil_r.
Qed.

Lemma epoch_loop_run args local_rank train_loader test_loader world_size rank es model :
  log_interval args ≠ 0 → world_size ≠ 0 →
  fis_zero (expected_shard_size test_loader world_size) = false →
  ∃ model',
    outcome (epoch_loop args local_rank train_loader test_loader world_size rank
               es model) = inr model' ∧
    train_ops (trace (epoch_loop args local_rank train_loader test_loader world_size
                        rank es model))
    = flat_map (epoch_ops (loader_iter train_loader)) es.
Proof.
  intros Hlog HW Hlen. revert model.
  induction es as [|epoch es IH]; intros model; cbn [epoch_loop].
  { by exists model. }
  destruct (epoch_body_run args local_rank train_loader test_loader world_size rank
              epoch model Hlog HW Hlen) as (model1 & Hout1 & Hops1).
  destruct (IH model1) as (model2 & Hout2 & Hops2).
  exists model2. rewrite (bind_inr _ _ _ Hout1). split; [done|].
  unfold trace at 1. cbn [fst flat_map]. by rewrite train_ops_app, Hops1, Hops2.
Qed.

(** [range(1, n + 1)] is 1, 2, ..., n. *)
Lemma elem_of_py_range (a b e : Z) : e ∈ py_range a b ↔ a ≤ e < b.
Proof.
  unfold py_range. rewrite list_elem_of_fmap. split.
  - intros (i & -> & Hi%elem_of_seq). lia.
  - intros He. exists (Z.to_nat (e - a)). split; [lia|]. apply elem_of_seq. lia.
Qed.

Lemma py_range_from_1 (n : Z) : py_range 1 (n + 1) = Z.of_nat <$> seq 1 (Z.to_nat n).
Proof.
  unfold py_range. replace (n + 1 - 1) with n by lia.
  rewrite <-fmap_S_seq, <-list_fmap_compose.
  apply list_fmap_ext. intros _ i _. cbn. lia.
Qed.

Lemma NoDup_py_range (a b : Z) : NoDup (py_range a b).
Proof.
  unfold py_range. apply NoDup_fmap_2; [|apply NoDup_seq].
  intros i j Hij. lia.
Qed.

Lemma length_py_range (a b : Z) : length (py_range a b) = Z.to_nat (b - a).
Proof. unfold py_range. by rewrite length_fmap, length_seq. Qed.

Lemma filter_epoch_ops (batches : list (list nat)) (epoch : Z) :
  filter (λ p, is_state p.2) (epoch_ops batches epoch)
  = flat_map (λ idxs, pair epoch <$> batch_states idxs) batches.
Proof.
  induction batches as [|idxs batches IH]; [done|].
  unfold epoch_ops in *. cbn [flat_map]. rewrite filter_app, IH. done.
Qed.

Lemma train_batch_eq args loader epoch rank batch_idx idxs model :
  log_interval args ≠ 0 →
  train_batch args loader epoch rank batch_idx idxs model
  = ((TrainOp epoch <$> batch_ops idxs)
       ++ (if logged (log_interval args) batch_idx && (rank =? 0)
           then [Print (train_line loader epoch batch_idx idxs
                          (batch_loss loader model idxs))]
           else []),
     inr (train_step loader model idxs)).
Proof.
  intros Hlog%Z.eqb_neq.
  unfold train_batch, py_mod, logged, train_line, batch_loss, train_step.
  rewrite Hlog. cbn [collate fst snd]. rewrite length_fmap.
  destruct ((Z.of_nat batch_idx `mod` log_interval args =? 0) && (rank =? 0)) eqn:Hif;
    cbn; rewrite Hif; reflexivity.
Qed.

Lemma train_loop_result args loader epoch rank batch_idx batches model :
  log_interval args ≠ 0 →
  outcome (train_loop args loader epoch rank batch_idx batches model)
  = inr (foldl (train_step loader) model batches).
Proof.
  intros Hlog. revert batch_idx model.
  induction batches as [|idxs batches IH]; intros batch_idx model; cbn [train_loop].
  { done. }
  rewrite (train_batch_eq args loader epoch rank batch_idx idxs model Hlog).
  rewrite (outcome_bind_inr _ _ (train_step loader model idxs)) by done.
  apply IH.
Qed.

Lemma acc_model_foldl (loader : DataLoader) (batches : list (list nat)) (acc : EvalAcc) :
  acc_model (foldl (eval_step loader) acc batches)
  = foldl (forward_only loader) (acc_model acc) batches.
Proof.
  revert acc. induction batches as [|idxs batches IH]; intros acc; [done|].
  cbn [foldl]. by rewrite IH.
Qed.

Lemma epoch_body_result args local_rank train_loader test_loader world_size rank epoch model :
  log_interval args ≠ 0 → world_size ≠ 0 →
  fis_zero (expected_shard_size test_loader world_size) = false →
  outcome (epoch_body args local_rank train_loader test_loader world_size rank
             epoch model)
  = inr (epoch_pass train_loader test_loader model).
Proof.
  intros Hlog HW Hlen. unfold epoch_body, train.
  rewrite (outcome_bind_inr _ _ (train_pass train_loader model))
    by (by apply train_loop_result).
  rewrite (test_run args _ local_rank test_loader world_size rank HW Hlen).
  cbn. by rewrite acc_model_foldl.
Qed.

Lemma epoch_loop_result args local_rank train_loader test_loader world_size rank es model :
  log_interval args ≠ 0 → world_size ≠ 0 →
  fis_zero (expected_shard_size test_loader world_size) = false →
  outcome (epoch_loop args local_rank train_loader test_loader world_size rank
             es model)
  = inr (Nat.iter (length es) (epoch_pass train_loader test_loader) model).
Proof.
  intros Hlog HW Hlen. revert model.
  induction es as [|epoch es IH]; intros model; cbn [epoch_loop]; [done|].
  rewrite (outcome_bind_inr _ _ (epoch_pass train_loader test_loader model))
    by (by apply epoch_body_result).
  rewrite IH. cbn [length]. by rewrite Nat.iter_succ_r.
Qed.

(** C6. Where the loops cannot raise (a non-zero log interval, a non-zero
    world size and expected shard size), the loop over the epochs returns,
    and the replica it returns is the one it was given taken max_epochs times
    through an epoch: per batch of the loader in turn, the forward pass on
    the replica with cleared gradients, the backward pass on the output of
    that forward pass, the averaging of the gradients over the ranks that
    the backward pass triggers, and then the optimizer step on its result;
    after the batches, the forward passes of the evaluation.  The states it
    went through are, for epoch = 1 .. max_epochs and for every batch,
    FETCH_BATCH, FORWARD, COMPUTE_LOSS, BACKWARD, OPTIMIZER_STEP in this
    order: every epoch, in increasing order, and nothing after the last. *)
Theorem training_state_machine (args : Args) (local_rank : Z)
    (train_loader test_loader : DataLoader) (world_size rank : Z) (model : Net) :
  log_interval args ≠ 0 → world_size ≠ 0 →
  fis_zero (expected_shard_size test_loader world_size) = false →
  let run := epoch_loop args local_rank train_loader test_loader world_size rank
               (py_range 1 (epochs args + 1)) model in
  outcome run
  = inr (Nat.iter (Z.to_nat (epochs args))
           (λ model,
              foldl (forward_only test_loader)
                (net_eval
                   (foldl (train_step train_loader) (net_train model)
                      (loader_iter train_loader)))
                (loader_iter test_loader))
           model) ∧
  state_sequence (trace run)
  = flat_map (λ epoch, flat_map (λ idxs, pair epoch <$> batch_states idxs)
                         (loader_iter train_loader))
      (Z.of_nat <$> seq 1 (Z.to_nat (epochs args))).
Proof.
  intros Hlog HW Hlen run.
  destruct (epoch_loop_run args local_rank train_loader test_loader world_size rank
              (py_range 1 (epochs args + 1)) model Hlog HW Hlen)
    as (model' & Hout & Hops).
  split.
  - unfold run.
    rewrite (epoch_loop_result args local_rank train_loader test_loader world_size
               rank _ model Hlog HW Hlen).
    rewrite length_py_range. do 2 f_equal. lia.
  - unfold state_sequence, run. rewrite Hops, <-py_range_from_1. clear.
    induction (py_range 1 (epochs args + 1)) as [|epoch es IH]; [done|].
    cbn [flat_map]. by rewrite filter_app, filter_epoch_ops, IH.
Qed.

Lemma epoch_batches_train_ops (epoch : Z) (tr : list event) :
  epoch_batches epoch tr = omap (fetched epoch) (train_ops tr).
Proof.
  induction tr as [|ev tr IH]; [done|].
  unfold epoch_batches, train_ops in *. destruct ev; try done.
  cbn. unfold fetched at 1. cbn. destruct o; try done.
  by destruct (decide _); rewrite IH.
Qed.

Lemma fetched_batch_ops (idxs : list nat) (epoch epoch' : Z) :
  omap (fetched epoch) (pair epoch' <$> batch_ops idxs)
  = if decide (epoch' = epoch) then [idxs] else [].
Proof. cbn. unfold fetched. cbn. by destruct (decide _). Qed.

Lemma fetched_epoch_ops_eq (batches : list (list nat)) (epoch : Z) :
  omap (fetched epoch) (epoch_ops batches epoch) = batches.
Proof.
  induction batches as [|idxs batches IH]; [done|].
  unfold epoch_ops in *. cbn [flat_map].
  by rewrite omap_app, fetched_batch_ops, decide_True, IH.
Qed.

Lemma fetched_epoch_ops_ne (batches : list (list nat)) (epoch epoch' : Z) :
  epoch' ≠ epoch → omap (fetched epoch) (epoch_ops batches epoch') = [].
Proof.
  intros Hne. induction batches as [|idxs batches IH]; [done|].
  unfold epoch_ops in *. cbn [flat_map].
  by rewrite omap_app, fetched_batch_ops, decide_False, IH.
Qed.

Lemma fetched_flat_map_notin (batches : list (list nat)) (es : list Z) (epoch : Z) :
  epoch ∉ es → omap (fetched epoch) (flat_map (epoch_ops batches) es) = [].
Proof.
  induction es as [|e es IH]; [done|]. intros Hnotin.
  cbn [flat_map]. rewrite omap_app, fetched_epoch_ops_ne, IH; [done| |].
  - intros ?. apply Hnotin. by right.
  - intros ->. apply Hnotin. by left.
Qed.

Lemma fetched_flat_map (batches : list (list nat)) (es : list Z) (epoch : Z) :
  NoDup es → epoch ∈ es →
  omap (fetched epoch) (flat_map (epoch_ops batches) es) = batches.
Proof.
  induction 1 as [|e es Hnotin Hnd IH]; [by intros ?%elem_of_nil|].
  intros Hin. cbn [flat_map]. rewrite omap_app.
  destruct (decide (e = epoch)) as [->|Hne].
  - by rewrite fetched_epoch_ops_eq, fetched_flat_map_notin, app_nil_r.
  - apply elem_of_cons in Hin as [?|Hin]; [congruence|].
    by rewrite fetched_epoch_ops_ne, IH.
Qed.

Lemma mjoin_batches_from (batch_size : nat) (batch l : list nat) :
  mjoin (batches_from batch_size batch l) = reverse batch ++ l.
Proof.
  revert batch. induction l as [|idx l IH]; intros batch; cbn [batches_from].
  - destruct batch; [done|]. cbn -[reverse]. by rewrite !app_nil_r.
  - destruct (_ =? _)%nat; [cbn -[reverse]|]; rewrite IH, reverse_cons, <-?app_assoc; done.
Qed.

(** C9. [main] builds the training sampler once and never advances its
    epoch, so in a job whose loops do not raise the batches fetched in any
    two epochs e and e' of 1 .. max_epochs are the same, and put end to end
    they are the one index sequence of the sampler. *)
Theorem same_indices_every_epoch (args : Args) (local_rank : Z)
    (train_loader test_loader : DataLoader) (world_size rank : Z) (model : Net)
    (e e' : Z) :
  log_interval args ≠ 0 → world_size ≠ 0 →
  fis_zero (expected_shard_size test_loader world_size) = false →
  1 ≤ e ≤ epochs args → 1 ≤ e' ≤ epochs args →
  let tr := trace (epoch_loop args local_rank train_loader test_loader world_size
                     rank (py_range 1 (epochs args + 1)) model) in
  epoch_batches e tr = epoch_batches e' tr ∧
  mjoin (epoch_batches e tr) = sampler_iter (dl_sampler train_loader).
Proof.
  intros Hlog HW Hlen He He' tr.
  destruct (epoch_loop_run args local_rank train_loader test_loader world_size rank
              (py_range 1 (epochs args + 1)) model Hlog HW Hlen)
    as (model' & _ & Hops).
  assert (∀ x, 1 ≤ x ≤ epochs args → epoch_batches x tr = loader_iter train_loader)
    as Hall.
  { intros x Hx. unfold tr. rewrite epoch_batches_train_ops, Hops.
    apply fetched_flat_map; [apply NoDup_py_range|].
    apply elem_of_py_range. lia. }
  rewrite !Hall by done. split; [done|].
  unfold loader_iter. by rewrite mjoin_batches_from.
Qed.

End Loops.

(** * Evaluation: what the printed average is *)

Section Evaluation.
Context `{RT : Runtime}.

Lemma console_eval_ops (batches : list (list nat)) : console (eval_ops batches) = [].
Proof. induction batches as [|idxs batches IH]; [done|]. exact IH. Qed.

Lemma test_result args model local_rank test_loader world_size rank :
  world_size ≠ 0 →
  fis_zero (expected_shard_size test_loader world_size) = false →
  let run := test args model local_rank test_loader world_size rank in
  let acc := foldl (eval_step test_loader) (eval_start model) (loader_iter test_loader) in
  let length := expected_shard_size test_loader world_size in
  (∃ res, outcome run = inr res ∧ test_loss res = fdiv (test_loss acc) length) ∧
  console (trace run)
  = if rank =? 0
    then [TestLine (fdiv (test_loss acc) length) (correct acc) length
            (fdiv (fmul (of_int 100) (of_int (correct acc))) length)]
    else [].
Proof.
  intros HW Hlen run acc length. unfold run.
  rewrite (test_run args model local_rank test_loader world_size rank HW Hlen).
  split; [by eexists|].
  unfold trace. cbn [fst]. rewrite console_app, console_eval_ops.
  by destruct (rank =? 0).
Qed.

(** C3. Whenever the division of [test] is defined (a non-zero world size
    and quotient), [test] returns, and its accumulated loss has been divided
    by len(dataset)/world_size, whatever batches the loader of the rank went
    through; the line the coordinator prints carries this average, and the
    same len(dataset)/world_size as the denominator of its accuracy, both in
    the fraction and in the percentage. *)
Theorem eval_divides_by_expected_shard_size (args : Args) (model : Net)
    (local_rank : Z) (test_loader : DataLoader) (world_size rank : Z) :
  world_size ≠ 0 →
  fis_zero (expected_shard_size test_loader world_size) = false →
  let run := test args model local_rank test_loader world_size rank in
  let acc := foldl (eval_step test_loader) (eval_start model) (loader_iter test_loader) in
  let length :=
    fdiv (of_int (Z.of_nat (ds_len (dl_dataset test_loader)))) (of_int world_size) in
  (∃ res, outcome run = inr res ∧ test_loss res = fdiv (test_loss acc) length) ∧
  console (trace run)
  = if rank =? 0
    then [TestLine (fdiv (test_loss acc) length) (correct acc) length
            (fdiv (fmul (of_int 100) (of_int (correct acc))) length)]
    else [].
Proof. intros HW Hlen. by apply test_result. Qed.

Lemma test_loss_foldl (test_loader : DataLoader) (batches : list (list nat))
    (acc : EvalAcc) :
  test_loss (foldl (eval_step test_loader) acc batches)
  = foldl fadd (test_loss acc)
      (batch_mean <$> eval_outputs test_loader (acc_model acc) batches).
Proof.
  revert acc. induction batches as [|idxs batches IH]; intros acc; [done|].
  cbn [foldl eval_outputs fmap list_fmap]. by rewrite IH.
Qed.

(** C10. The loss [test] accumulates is the sum, batch after batch from 0,
    of the mean loss of the examples of each batch; what it returns and what
    the coordinator prints as average loss is this sum of batch means divided
    by len(dataset)/world_size. *)
Theorem eval_loss_sums_batch_means (args : Args) (model : Net)
    (local_rank : Z) (test_loader : DataLoader) (world_size rank : Z) :
  world_size ≠ 0 →
  fis_zero (expected_shard_size test_loader world_size) = false →
  let run := test args model local_rank test_loader world_size rank in
  let means :=
    batch_mean <$> eval_outputs test_loader (net_eval model) (loader_iter test_loader) in
  let avg := fdiv (fsum means) (expected_shard_size test_loader world_size) in
  (∃ res, outcome run = inr res ∧ test_loss res = avg) ∧
  (rank = 0 → ∃ n len pct, console (trace run) = [TestLine avg n len pct]).
Proof.
  intros HW Hlen run means avg.
  destruct (test_result args model local_rank test_loader world_size rank HW Hlen)
    as [(res & Hres & Hloss) Hcon].
  fold run in Hres, Hcon. rewrite test_loss_foldl in Hloss, Hcon.
  split; [by exists res|].
  intros ->. rewrite Hcon. by eexists _, _, _.
Qed.

End Evaluation.

(** * The shards of the ranks *)

Section Slices.
Context `{RT : Runtime}.
Local Open Scope nat_scope.

Lemma length_slice (l : list nat) (start stop step : nat) :
  length (slice l start stop step) = slice_len (length l) start stop step.
Proof. unfold slice. by rewrite length_fmap, length_seq. Qed.

(** The positions a slice visits. *)
Lemma slice_len_spec (len start stop step k : nat) :
  0 < step →
  k < slice_len len start stop step ↔ start + k * step < Nat.min stop len.
Proof.
  intros Hstep. unfold slice_len.
  destruct (Nat.ltb_spec (Nat.min start len) (Nat.min stop len)) as [Hlt|Hge].
  - assert (Nat.min start len = start) as -> by lia.
    set (a := Nat.min stop len - start - 1).
    pose proof (Nat.div_mod_eq a step) as Hdm.
    pose proof (Nat.mod_upper_bound a step) as Hmod.
    assert (Nat.min stop len = start + a + 1) as -> by lia.
    split; intros Hk; nia.
  - split; [lia|]. intros Hk. nia.
Qed.

Lemma slice_lookup (l : list nat) (start stop step k x : nat) :
  0 < step →
  slice l start stop step !! k = Some x ↔
  start + k * step < Nat.min stop (length l) ∧ l !! (start + k * step) = Some x.
Proof.
  intros Hstep. unfold slice. rewrite list_lookup_fmap.
  rewrite <-(slice_len_spec (length l) start stop step k Hstep).
  destruct (decide (k < slice_len (length l) start stop step)) as [Hk|Hk].
  - rewrite lookup_seq_lt by done. cbn.
    apply slice_len_spec in Hk as Hpos; [|done].
    assert (Nat.min start (length l) = start) as -> by lia.
    rewrite (list_lookup_lookup_total_lt l (start + k * step)) by lia.
    split; [by intros ?|by intros [_ ?]].
  - rewrite lookup_seq_ge by lia. split; [done|by intros [? _]].
Qed.

Lemma elem_of_slice (l : list nat) (start stop step x : nat) :
  0 < step →
  x ∈ slice l start stop step ↔
  ∃ k, start + k * step < Nat.min stop (length l) ∧ l !! (start + k * step) = Some x.
Proof.
  intros Hstep. rewrite list_elem_of_lookup.
  by setoid_rewrite (slice_lookup l start stop step _ x Hstep).
Qed.

(** [ceil_div] is the ceiling of the quotient. *)
Lemma ceil_div_spec (a b : nat) : 0 < b → a ≤ ceil_div a b * b < a + b.
Proof.
  intros Hb. unfold ceil_div.
  pose proof (Nat.div_mod_eq (a + b - 1) b) as Hdm.
  pose proof (Nat.mod_upper_bound (a + b - 1) b) as Hmod.
  nia.
Qed.

Lemma ceil_div_floor (a b : nat) :
  0 < b →
  ceil_div a b = a / b ∨ (ceil_div a b = S (a / b) ∧ a `mod` b ≠ 0).
Proof.
  intros Hb. pose proof (ceil_div_spec a b Hb) as Hc.
  pose proof (Nat.div_mod_eq a b) as Hdm.
  pose proof (Nat.mod_upper_bound a b) as Hmod.
  destruct (decide (a `mod` b = 0)) as [H0|H0]; [left|right; split; [|done]]; nia.
Qed.

End Slices.

Section Shards.
Context `{RT : Runtime}.
Local Open Scope nat_scope.

Variable d : Dataset.
Variables W seed : Z.
Hypothesis W_pos : (1 ≤ W)%Z.
Hypothesis randperm_perm : randperm (seed + 0) (ds_len d) ≡ₚ seq 0 (ds_len d).

Local Abbreviation N := (ds_len d).
Local Abbreviation Wn := (Z.to_nat W).
Local Abbreviation perm := (randperm (seed + 0) (ds_len d)).
Local Abbreviation ns := (ceil_div (ds_len d) (Z.to_nat W)).
Local Abbreviation sampler_at R :=
  {| s_len := N; s_num_replicas := Wn; s_rank := Z.to_nat R; s_epoch := 0;
     s_num_samples := ns; s_total_size := ns * Wn; s_seed := seed |}.

Lemma Wn_pos : 0 < Wn.
Proof. lia. Qed.

Lemma length_perm : length perm = N.
Proof. by rewrite randperm_perm, length_seq. Qed.

Lemma NoDup_perm : NoDup perm.
Proof. rewrite randperm_perm. apply NoDup_seq. Qed.

Lemma elem_of_perm (i : nat) : i ∈ perm ↔ i < N.
Proof. rewrite randperm_perm, elem_of_seq. lia. Qed.

Lemma sampler_of_rank (R : Z) :
  (0 ≤ R < W)%Z →
  DistributedSampler_init d W R seed = inr (sampler_at R).
Proof.
  intros HR. unfold DistributedSampler_init.
  destruct (Z.geb_spec R W); [lia|]. destruct (Z.ltb_spec R 0); [lia|]. done.
Qed.

(** The padded list: the permutation first, then as many of its entries as
    are missing to [ns * Wn]. *)
Lemma padded_of_rank (s : DistributedSampler) :
  s_len s = N → s_seed s = seed → s_epoch s = 0%Z → s_total_size s = ns * Wn →
  ∃ pad, padded_indices s = perm ++ pad ∧ length pad = ns * Wn - N ∧
         Forall (λ i, i < N) pad.
Proof.
  intros Hlen Hseed Hep Htot. unfold padded_indices.
  rewrite Hlen, Hseed, Hep, Htot. rewrite length_perm.
  pose proof (ceil_div_spec N Wn Wn_pos) as Hceil.
  destruct (Nat.leb_spec (ns * Wn - N) N) as [Hle|Hgt].
  - eexists. split; [done|]. split.
    + rewrite length_take, length_perm. lia.
    + apply Forall_forall. intros i Hi%subseteq_take. by apply elem_of_perm.
  - eexists. split; [done|]. split.
    + assert (0 < N) as HN.
      { destruct (decide (N = 0)) as [HN0|]; [|lia].
        assert (ns = 0) as Hns0 by nia. rewrite Hns0 in Hgt. lia. }
      pose proof (ceil_div_spec (ns * Wn - N) N HN) as Hc.
      rewrite length_take, length_join, fmap_replicate, sum_list_replicate, length_perm.
      lia.
    + apply Forall_forall. intros i Hi%subseteq_take.
      apply list_elem_of_join in Hi as (l & Hi & ->%elem_of_replicate_inv).
      by apply elem_of_perm.
Qed.

Lemma padded_lookup (pad : list nat) (p : nat) :
  p < N → (perm ++ pad) !! p = perm !! p.
Proof. intros Hp. apply lookup_app_l. by rewrite length_perm. Qed.

(** A shard, position by position. *)
Lemma shard_lookup (R : Z) (pad : list nat) (k x : nat) :
  (0 ≤ R < W)%Z → length pad = ns * Wn - N →
  slice (perm ++ pad) (Z.to_nat R) (ns * Wn) Wn !! k = Some x ↔
  k < ns ∧ (perm ++ pad) !! (Z.to_nat R + k * Wn) = Some x.
Proof.
  intros HR Hpad. rewrite slice_lookup by apply Wn_pos.
  pose proof (ceil_div_spec N Wn Wn_pos) as Hceil.
  rewrite length_app, length_perm, Hpad.
  assert (Z.to_nat R < Wn) as HRn by lia.
  assert (Z.to_nat R + k * Wn < Nat.min (ns * Wn) (N + (ns * Wn - N)) ↔ k < ns)
    as -> by nia.
  done.
Qed.

Lemma length_shard (R : Z) : (0 ≤ R < W)%Z → length (shard d W seed R) = ns.
Proof.
  intros HR. unfold shard. rewrite (sampler_of_rank R HR). unfold sampler_iter.
  destruct (padded_of_rank (sampler_at R) eq_refl eq_refl eq_refl eq_refl)
    as (pad & -> & Hpad & _). cbn [s_rank s_total_size s_num_replicas].
  rewrite length_slice, length_app, length_perm, Hpad.
  pose proof (ceil_div_spec N Wn Wn_pos) as Hceil.
  assert (Z.to_nat R < Wn) as HRn by lia.
  apply Nat.le_antisymm.
  - apply Nat.nlt_ge. intros Hlt.
    apply (slice_len_spec _ (Z.to_nat R) (ns * Wn) Wn ns Wn_pos) in Hlt. lia.
  - destruct (decide (ns = 0)) as [|Hns]; [lia|].
    assert (ns - 1 < slice_len (N + (ns * Wn - N)) (Z.to_nat R) (ns * Wn) Wn); [|lia].
    apply slice_len_spec; [apply Wn_pos|].
    assert ((ns - 1) * Wn + Wn = ns * Wn) by nia. lia.
Qed.

(** The part of a shard before its padding is the strided slice of the
    permutation; what follows is at most one entry. *)
Lemma shard_split (R : Z) :
  (0 ≤ R < W)%Z →
  ∃ pad, shard d W seed R = shard_core d W seed R ++ pad ∧ length pad ≤ 1 ∧
         Forall (λ i, i < N) pad.
Proof.
  intros HR. pose proof (length_shard R HR) as Hlen. revert Hlen.
  unfold shard. rewrite (sampler_of_rank R HR). unfold sampler_iter.
  destruct (padded_of_rank (sampler_at R) eq_refl eq_refl eq_refl eq_refl)
    as (pad & -> & Hpad & Hrange). cbn [s_rank s_total_size s_num_replicas].
  intros Hlen.
  pose proof (ceil_div_spec N Wn Wn_pos) as Hceil.
  assert (Z.to_nat R < Wn) as HRn by lia.
  set (sh := slice (perm ++ pad) (Z.to_nat R) (ns * Wn) Wn) in *.
  set (core := shard_core d W seed R).
  assert (∀ k x, core !! k = Some x ↔
                 Z.to_nat R + k * Wn < N ∧ perm !! (Z.to_nat R + k * Wn) = Some x)
    as Hcore.
  { intros k x. unfold core, shard_core.
    rewrite slice_lookup by apply Wn_pos. rewrite length_perm.
    by rewrite Nat.min_id. }
  assert (∀ k x, core !! k = Some x → sh !! k = Some x) as Hsub.
  { intros k x [Hk Hx]%Hcore. apply shard_lookup; [done..|].
    split; [nia|]. by rewrite padded_lookup. }
  assert (length core ≤ length sh) as Hle.
  { destruct (decide (length core ≤ length sh)) as [|Hn]; [done|].
    destruct (lookup_lt_is_Some_2 core (length sh)) as [x Hx]; [lia|].
    apply Hsub, lookup_lt_Some in Hx. lia. }
  assert (take (length core) sh = core) as Htake.
  { apply list_eq. intros k. destruct (decide (k < length core)) as [Hk|Hk].
    - rewrite lookup_take_lt by done.
      destruct (lookup_lt_is_Some_2 core k Hk) as [x Hx]. rewrite Hx. by apply Hsub.
    - rewrite lookup_take_ge, lookup_ge_None_2 by lia. done. }
  exists (drop (length core) sh). split_and!.
  - by rewrite <-Htake at 1; rewrite take_drop.
  - rewrite length_drop, Hlen.
    destruct (decide (ns ≤ S (length core))) as [|Hn]; [lia|].
    assert (is_Some (core !! (ns - 2))) as [x Hx%lookup_lt_Some]; [|lia].
    assert (Z.to_nat R + (ns - 2) * Wn < N) as Hpos by nia.
    destruct (lookup_lt_is_Some_2 perm (Z.to_nat R + (ns - 2) * Wn)) as [x Hx].
    { by rewrite length_perm. }
    exists x. by apply Hcore.
  - apply Forall_forall. intros x Hx%subseteq_drop.
    apply list_elem_of_lookup in Hx as [k Hk].
    apply shard_lookup in Hk as [_ Hk]; [|done..].
    apply list_elem_of_lookup_2, elem_of_app in Hk as [Hk|Hk].
    + by apply elem_of_perm.
    + by eapply Forall_forall in Hrange.
Qed.

Lemma shard_core_covers (i : nat) :
  i < N → ∃ R, (0 ≤ R < W)%Z ∧ i ∈ shard_core d W seed R.
Proof.
  intros Hi%elem_of_perm. apply list_elem_of_lookup in Hi as [p Hp].
  pose proof (lookup_lt_Some _ _ _ Hp) as Hlt. rewrite length_perm in Hlt.
  pose proof (Nat.div_mod_eq p Wn) as Hdm.
  pose proof (Nat.mod_upper_bound p Wn) as Hmod.
  pose proof Wn_pos as HW.
  exists (Z.of_nat (p `mod` Wn)). split; [lia|].
  unfold shard_core. apply elem_of_slice; [done|].
  exists (p / Wn). rewrite Nat2Z.id, length_perm, Nat.min_id.
  assert (p `mod` Wn + p / Wn * Wn = p) as -> by lia. done.
Qed.

Lemma shard_core_disjoint (R1 R2 : Z) (i : nat) :
  (0 ≤ R1 < W)%Z → (0 ≤ R2 < W)%Z →
  i ∈ shard_core d W seed R1 → i ∈ shard_core d W seed R2 → R1 = R2.
Proof.
  intros HR1 HR2. unfold shard_core.
  rewrite !elem_of_slice by apply Wn_pos.
  intros (k1 & _ & H1) (k2 & _ & H2).
  pose proof (NoDup_lookup _ _ _ _ NoDup_perm H1 H2) as Heq.
  assert (Z.to_nat R1 < Wn ∧ Z.to_nat R2 < Wn) as [? ?] by lia.
  assert (k1 = k2) by nia. subst k2. lia.
Qed.

Lemma NoDup_shard_core (R : Z) : NoDup (shard_core d W seed R).
Proof.
  apply NoDup_alt. intros k1 k2 x. unfold shard_core.
  rewrite !slice_lookup by apply Wn_pos. intros [_ H1] [_ H2].
  pose proof (NoDup_lookup _ _ _ _ NoDup_perm H1 H2) as Heq.
  pose proof Wn_pos. nia.
Qed.

End Shards.

Section ShardTheorems.
Context `{RT : Runtime}.
Local Open Scope nat_scope.

(** C4. For a dataset of N examples and a world of W >= 1 ranks, with the
    generator yielding a permutation of the N indices: every rank's shard has
    floor(N/W) or ceil(N/W) entries; it is the strided part of the
    permutation followed by padding of at most one entry, itself an index of
    the dataset; the parts before the padding are duplicate-free and pairwise
    disjoint; and every index of the dataset is in the shard of some rank. *)
Theorem shards_partition (d : Dataset) (W seed : Z) :
  (1 ≤ W)%Z →
  randperm (seed + 0) (ds_len d) ≡ₚ seq 0 (ds_len d) →
  let N := ds_len d in
  let Wn := Z.to_nat W in
  (∀ R, (0 ≤ R < W)%Z →
     (length (shard d W seed R) = N / Wn ∨
      (length (shard d W seed R) = S (N / Wn) ∧ N `mod` Wn ≠ 0)) ∧
     (∃ pad, shard d W seed R = shard_core d W seed R ++ pad ∧
             length pad ≤ 1 ∧ Forall (λ i, i < N) pad) ∧
     NoDup (shard_core d W seed R)) ∧
  (∀ R1 R2 i, (0 ≤ R1 < W)%Z → (0 ≤ R2 < W)%Z →
     i ∈ shard_core d W seed R1 → i ∈ shard_core d W seed R2 → R1 = R2) ∧
  (∀ i, i < N → ∃ R, (0 ≤ R < W)%Z ∧ i ∈ shard d W seed R).
Proof.
  intros HW Hperm N Wn. split_and!.
  - intros R HR. split_and!.
    + rewrite (length_shard d W seed HW Hperm R HR).
      apply ceil_div_floor. unfold Wn. lia.
    + apply (shard_split d W seed HW Hperm R HR).
    + apply (NoDup_shard_core d W seed HW Hperm R).
  - intros R1 R2 i. apply (shard_core_disjoint d W seed HW Hperm).
  - intros i Hi.
    destruct (shard_core_covers d W seed HW Hperm i Hi) as (R & HR & Hin).
    exists R. split; [done|].
    destruct (shard_split d W seed HW Hperm R HR) as (pad & -> & _).
    apply elem_of_app. by left.
Qed.

End ShardTheorems.

Section Checkpoint.
Context `{RT : Runtime}.

(** Splits the trace of a run that returned at every top-level bind. *)
Ltac run_inv H :=
  repeat match type of H with
         | outcome (bind ?m ?k) = inr ?b =>
             let a := fresh "a" in
             let Hm := fresh "Hm" in
             apply bind_inr_inv in H as (a & Hm & H);
             rewrite (trace_bind_inr m k a Hm); cbv beta
         end.

(** Every rank whose [main] returns has written the checkpoint when the
    flag is set: the call is not guarded by the rank. *)
Lemma every_rank_saves (args : Args) (w : World) :
  save_model args = true → outcome (main args w) = inr tt →
  saves (trace (main args w)) = ["mnist_cnn.pt"].
Proof.
  intros Hflag Hrun. unfold main in *. rewrite Hflag in *. run_inv Hrun.
  match goal with
  | H : outcome (torch_save _ _) = inr _ |- _ => rewrite (torch_save_inr _ _ _ H)
  end.
  rewrite trace_cleanup, !saves_app.
  repeat (rewrite saves_no_save;
          [|first [ apply epoch_loop_no_save
                  | unfold getenv, int, dist_init, load_mnist, elapsed_seconds;
                    quiet; exact I ]]).
  done.
Qed.

(** On the coordinator a run that returns has printed the elapsed time. *)
Lemma coordinator_prints_elapsed (args : Args) (w : World) :
  global_rank w = Some 0 → outcome (main args w) = inr tt →
  ElapsedLine (fdiv (elapsed_time w) (of_int 1000)) ∈ console (trace (main args w)).
Proof.
  intros Hrank Hrun. unfold main in *. run_inv Hrun.
  repeat match goal with
         | H : outcome (getenv _ "SLURM_PROCID") = inr _ |- _ => apply getenv_inr in H
         | H : outcome (int _) = inr _ |- _ => apply int_inr in H
         end.
  unfold global_rank in Hrank.
  match goal with
  | H : environ w !! "SLURM_PROCID" = Some ?s, H' : py_int ?s = Some ?r |- _ =>
      rewrite H in Hrank; cbn in Hrank; rewrite H' in Hrank;
      injection Hrank as ->
  end.
  change (0 =? 0) with true in *. cbv iota in *.
  match goal with
  | H : outcome (bind (elapsed_seconds w) _) = inr _ |- _ =>
      apply bind_inr_inv in H as (t & Ht%elapsed_seconds_inr & _); rewrite Ht
  end.
  rewrite !console_app, !elem_of_app.
  do 20 right. left. cbn. apply elem_of_cons. by left.
Qed.

End Checkpoint.

(** * The script on the small runtime *)

Section Examples.
#[local] Existing Instance toy.

Lemma toy_randperm_perm (g : Z) (n : nat) : randperm g n ≡ₚ seq 0 n.
Proof.
  cbn. unfold rotate.
  by rewrite Permutation_app_comm, take_drop.
Qed.

(** The sampler of the model does depend on its epoch: had [main] called
    [set_epoch], the order would have changed. *)
Example set_epoch_changes_order :
  sampler_iter (toy_sampler 0) = [0; 4; 8]%nat ∧
  sampler_iter (set_epoch (toy_sampler 0) 1) = [1; 5; 9]%nat.
Proof. by vm_compute. Qed.

(** With a log interval of 0 every rank stops in its first batch, after the
    optimizer step. *)
Example zero_log_interval_raises :
  main {| batch_size := 2; test_batch_size := 2; epochs := 1; lr := 1 # 100;
          momentum := 1 # 2; no_cuda := false; seed := 1; log_interval := 0;
          save_model := true; datasetDir := Some "data" |} (toy_world "1")
  = ([Getenv "SLURM_PROCID"; Getenv "SLURM_LOCALID"; Getenv "SLURM_NTASKS";
      Getenv "SLURM_JOB_NODELIST";
      Subprocess "scontrol show hostname node[0-1] | head -n1";
      InitProcessGroup "tcp://node0:23456" 1 4; CudaInit; SetDevice 1;
      LoadDataset true; LoadDataset false; BuildModel; WrapDDP; RecordEvent;
      TrainOp 1 (FETCH_BATCH [1; 5]%nat); TrainOp 1 ZERO_GRAD; TrainOp 1 FORWARD;
      TrainOp 1 COMPUTE_LOSS; TrainOp 1 BACKWARD; TrainOp 1 OPTIMIZER_STEP],
     inl ZeroDivisionError).
Proof. by vm_compute. Qed.

(** C1. The code at a failing input: rank 1 of a job of four, with the
    save-model flag set, runs to its end and writes mnist_cnn.pt, although it
    is not the coordinator. *)
Theorem checkpoint_written_off_coordinator :
  global_rank (toy_world "1") = Some 1%Z ∧
  outcome (main (toy_args 1 true) (toy_world "1")) = inr tt ∧
  saves (trace (main (toy_args 1 true) (toy_world "1"))) = ["mnist_cnn.pt"].
Proof. by vm_compute. Qed.

Lemma only_coordinator_prints_witness :
  global_rank (toy_world "1") ≠ Some 0%Z ∧
  console (trace (main (toy_args 2 true) (toy_world "1"))) = [].
Proof.
  split; [by vm_compute|].
  apply only_coordinator_prints. by vm_compute.
Defined.

Lemma no_flag_no_checkpoint_witness :
  save_model (toy_args 2 false) = false ∧
  saves (trace (main (toy_args 2 false) (toy_world "0"))) = [].
Proof.
  split; [reflexivity|].
  apply no_flag_no_checkpoint. reflexivity.
Defined.

Lemma missing_env_fails_fast_witness :
  environ toy_world_no_rank !! "SLURM_PROCID" = None ∧
  exit_status (main (toy_args 2 true) toy_world_no_rank) ≠ 0%Z ∧
  trace (main (toy_args 2 true) toy_world_no_rank)
    `prefix_of` (Getenv <$> required_env) ∧
  console (trace (main (toy_args 2 true) toy_world_no_rank)) = [].
Proof.
  split; [by vm_compute|].
  apply (missing_env_fails_fast (toy_args 2 true) toy_world_no_rank "SLURM_PROCID").
  - unfold required_env. apply elem_of_cons. by left.
  - by vm_compute.
Defined.

Lemma training_state_machine_witness :
  outcome (epoch_loop (toy_args 2 false) 0 (toy_loader 0) (toy_loader 0) 4 0
             (py_range 1 (2 + 1)) 0%nat)
  = inr 4%nat ∧
  state_sequence
    (trace (epoch_loop (toy_args 2 false) 0 (toy_loader 0) (toy_loader 0) 4 0
              (py_range 1 (2 + 1)) 0%nat))
  = [(1%Z, FETCH_BATCH [0; 4]%nat); (1%Z, FORWARD); (1%Z, COMPUTE_LOSS);
     (1%Z, BACKWARD); (1%Z, OPTIMIZER_STEP);
     (1%Z, FETCH_BATCH [8]%nat); (1%Z, FORWARD); (1%Z, COMPUTE_LOSS);
     (1%Z, BACKWARD); (1%Z, OPTIMIZER_STEP);
     (2%Z, FETCH_BATCH [0; 4]%nat); (2%Z, FORWARD); (2%Z, COMPUTE_LOSS);
     (2%Z, BACKWARD); (2%Z, OPTIMIZER_STEP);
     (2%Z, FETCH_BATCH [8]%nat); (2%Z, FORWARD); (2%Z, COMPUTE_LOSS);
     (2%Z, BACKWARD); (2%Z, OPTIMIZER_STEP)].
Proof.
  destruct (training_state_machine (toy_args 2 false) 0 (toy_loader 0) (toy_loader 0)
              4 0 0%nat) as [Hout Hseq].
  - by vm_compute.
  - by vm_compute.
  - by vm_compute.
  - split; [|exact Hseq]. etrans; [exact Hout|]. by vm_compute.
Defined.

Lemma same_indices_every_epoch_witness :
  epoch_batches 1
    (trace (epoch_loop (toy_args 2 false) 0 (toy_loader 1) (toy_loader 1) 4 1
              (py_range 1 (2 + 1)) 0%nat))
  = epoch_batches 2
      (trace (epoch_loop (toy_args 2 false) 0 (toy_loader 1) (toy_loader 1) 4 1
                (py_range 1 (2 + 1)) 0%nat)).
Proof.
  apply (same_indices_every_epoch (toy_args 2 false) 0 (toy_loader 1) (toy_loader 1)
           4 1 0%nat 1 2); by vm_compute.
Defined.

Lemma eval_divides_by_expected_shard_size_witness :
  ∃ res,
    outcome (test (toy_args 1 false) 0%nat 0 (toy_loader 0) 4 0) = inr res ∧
    test_loss res
    = fdiv (test_loss (foldl (eval_step (toy_loader 0)) (eval_start 0%nat)
                         (loader_iter (toy_loader 0))))
           (fdiv (of_int 10) (of_int 4)).
Proof.
  apply (eval_divides_by_expected_shard_size (toy_args 1 false) 0%nat 0
           (toy_loader 0) 4 0); by vm_compute.
Defined.

Lemma eval_loss_sums_batch_means_witness :
  ∃ res,
    outcome (test (toy_args 1 false) 0%nat 0 (toy_loader 0) 4 0) = inr res ∧
    test_loss res
    = fdiv (fsum (batch_mean <$> eval_outputs (toy_loader 0) (net_eval 0%nat)
                                   (loader_iter (toy_loader 0))))
           (expected_shard_size (toy_loader 0) 4).
Proof.
  apply (eval_loss_sums_batch_means (toy_args 1 false) 0%nat 0 (toy_loader 0) 4 0);
    by vm_compute.
Defined.

(** C10, as stated, fails: rank 0 of four over the ten examples evaluates
    the batches [0; 4] and [8], of sizes 2 and 1, with losses 1, 1 and 4; the
    batch means 1 and 4 sum to 5, the printed average is 5 / (10/4) = 2, and
    the mean loss of the three examples is 6 / 3 = 2 as well. *)
Lemma unequal_batches_same_mean :
  DistributedSampler_init toy_dataset 4 0 0 = inr (toy_sampler 0) ∧
  DataLoader_init toy_dataset 2 (toy_sampler 0) = inr (toy_loader 0) ∧
  loader_iter (toy_loader 0) = [[0; 4]; [8]]%nat ∧
  unequal_batches (loader_iter (toy_loader 0)) ∧
  console (trace (test (toy_args 1 false) 0%nat 0 (toy_loader 0) 4 0))
  = [TestLine 2%Q 3 (5 # 2)%Q 120%Q] ∧
  per_example_mean (toy_loader 0) 0%nat = 2%Q.
Proof.
  split_and!; try by vm_compute.
  exists [0; 4]%nat, [8]%nat. split_and!.
  - vm_compute. apply elem_of_cons. by left.
  - vm_compute. apply elem_of_cons. right. apply elem_of_cons. by left.
  - vm_compute. lia.
Qed.

Lemma shards_partition_witness :
  randperm (3 + 0) (ds_len toy_dataset) ≡ₚ seq 0 (ds_len toy_dataset) ∧
  ∃ R, (0 ≤ R < 4)%Z ∧ 7%nat ∈ shard toy_dataset 4 3 R.
Proof.
  split; [apply toy_randperm_perm|].
  destruct (shards_partition toy_dataset 4 3) as (_ & _ & Hcover).
  - lia.
  - apply toy_randperm_perm.
  - apply Hcover. cbn. lia.
Defined.

End Examples.

(** * Further facts: start-up, shutdown and the lines of the loops *)

Section Further.
Context `{RT : Runtime}.

Ltac split_run H :=
  repeat match type of H with
         | outcome (bind ?m ?k) = inr ?b =>
             let a := fresh "a" in
             let Hm := fresh "Hm" in
             apply bind_inr_inv in H as (a & Hm & H);
             rewrite (trace_bind_inr m k a Hm); cbv beta
         end.

Lemma getenv_ok w key v :
  environ w !! key = Some v → getenv w key = ([Getenv key], inr v).
Proof. intros Hv. unfold getenv. by rewrite Hv. Qed.

Lemma int_ok s z : py_int s = Some z → int s = ([], inr z).
Proof. intros Hz. unfold int. by rewrite Hz. Qed.

Lemma dist_init_ok w host rank local_rank world_size port :
  rendezvous_ok w = true →
  dist_init w host rank local_rank world_size port
  = ([InitProcessGroup ("tcp://" +:+ host +:+ ":" +:+ pretty port) rank world_size;
      CudaInit; SetDevice local_rank], inr tt).
Proof. intros Hok. unfold dist_init. by rewrite Hok. Qed.

Lemma dist_init_fails w host rank local_rank world_size port :
  rendezvous_ok w = false →
  dist_init w host rank local_rank world_size port
  = ([InitProcessGroup ("tcp://" +:+ host +:+ ":" +:+ pretty port) rank world_size],
     inl (RuntimeError "init_process_group")).
Proof. intros Hok. unfold dist_init. by rewrite Hok. Qed.

Lemma trace_bind_pair {A B} (tr : list event) (a : A) (k : A → W B) :
  trace (bind (tr, inr a) k) = tr ++ trace (k a).
Proof. by rewrite (bind_inr (tr, inr a) k a eq_refl). Qed.

(** ** The events of the loops *)

Lemma train_loop_events args loader epoch rank batch_idx batches model :
  Forall (train_event epoch)
    (trace (train_loop args loader epoch rank batch_idx batches model)).
Proof.
  revert batch_idx model.
  induction batches as [|idxs batches IH]; intros batch_idx model; cbn [train_loop].
  { quiet. }
  apply Forall_trace_bind; [|intros ? _; apply IH].
  unfold train_batch, py_mod. quiet; done.
Qed.

Lemma test_events args model local_rank loader world_size rank :
  Forall eval_event (trace (test args model local_rank loader world_size rank)).
Proof.
  unfold test, int_truediv, float_truediv.
  apply Forall_trace_bind; [quiet|intros ? _].
  apply Forall_trace_bind; [|intros ? _; quiet; exact I].
  rewrite test_loop_run. unfold trace. cbn [fst].
  induction (loader_iter loader) as [|idxs bs IH]; [constructor|].
  cbn. by repeat constructor.
Qed.

Lemma train_event_loop_event epoch ev : train_event epoch ev → loop_event ev.
Proof. destruct ev as [| | | | | | | | | | |[]| |]; done. Qed.

Lemma eval_event_loop_event ev : eval_event ev → loop_event ev.
Proof. destruct ev as [| | | | | | | | | |[]|[]| |]; done. Qed.

Lemma train_ops_eval_events (tr : list event) :
  Forall eval_event tr → train_ops tr = [].
Proof.
  induction 1 as [|ev tr Hev _ IH]; [done|].
  destruct ev as [| | | | | | | | | |[]|[]| |]; done.
Qed.

Lemma epoch_loop_events args local_rank train_loader test_loader world_size rank es model :
  Forall loop_event
    (trace (epoch_loop args local_rank train_loader test_loader world_size rank es model)).
Proof.
  revert model. induction es as [|epoch es IH]; intros model; cbn [epoch_loop].
  { quiet. }
  apply Forall_trace_bind; [|intros ? _; apply IH].
  unfold epoch_body.
  apply Forall_trace_bind; [|intros ? _].
  { eapply Forall_impl; [apply train_loop_events|].
    intros ev. apply train_event_loop_event. }
  apply Forall_trace_bind; [|intros ? _; quiet].
  eapply Forall_impl; [apply test_events|]. apply eval_event_loop_event.
Qed.

(** ** The shape of a run of [main] that returns *)

Lemma load_mnist_inr w dir is_train ds :
  outcome (load_mnist w dir is_train) = inr ds → mnist w dir is_train = Some ds.
Proof.
  unfold load_mnist. intros (_ & _ & H)%bind_inr_inv.
  destruct (mnist w dir is_train); cbn in H; by simplify_eq.
Qed.

Lemma lift_inr {A} (r : exn + A) (a : A) : outcome (lift r) = inr a → r = inr a.
Proof. done. Qed.

Lemma closing_trace args w rank (a b : unit) :
  outcome (if rank =? 0
           then seconds <- elapsed_seconds w;; emit (Print (ElapsedLine seconds))
           else ret tt) = inr a →
  outcome (if save_model args then torch_save w "mnist_cnn.pt" else ret tt) = inr b →
  trace (emit RecordEvent)
    ++ trace (if rank =? 0
              then seconds <- elapsed_seconds w;; emit (Print (ElapsedLine seconds))
              else ret tt)
    ++ trace (if save_model args then torch_save w "mnist_cnn.pt" else ret tt)
    ++ trace (cleanup w)
  = closing args w rank.
Proof.
  intros Hprint Hsave. unfold closing. rewrite trace_cleanup.
  change (trace (emit RecordEvent)) with [RecordEvent]. do 2 f_equal.
  - destruct (rank =? 0); [|done].
    apply bind_inr_inv in Hprint as (t & Ht%elapsed_seconds_inr & _).
    by rewrite Ht.
  - f_equal. destruct (save_model args); [|done]. by apply torch_save_inr in Hsave.
Qed.

Lemma pre_cons (tr rest body tail : list event) :
  Forall setup_event tr →
  (∃ pre, Forall setup_event pre ∧ rest = pre ++ body ++ tail) →
  ∃ pre, Forall setup_event pre ∧ tr ++ rest = pre ++ body ++ tail.
Proof.
  intros Htr (pre & Hpre & ->). exists (tr ++ pre).
  split; [by apply Forall_app|]. by rewrite <-app_assoc.
Qed.

(** A run that returns has read its rank and world size, found the two
    sets, built their samplers and loaders from them, run the loop over the
    epochs to its end, and closed. *)
Lemma main_returns_loop (args : Args) (w : World) :
  outcome (main args w) = inr tt →
  ∃ rank local_rank world_size train_ds train_sampler train_loader
    test_ds test_sampler test_loader,
    global_rank w = Some rank ∧
    job_size w = Some world_size ∧
    mnist w (datasetDir args) true = Some train_ds ∧
    DistributedSampler_init train_ds world_size rank 0 = inr train_sampler ∧
    DataLoader_init train_ds (batch_size args) train_sampler = inr train_loader ∧
    mnist w (datasetDir args) false = Some test_ds ∧
    DistributedSampler_init test_ds world_size rank 0 = inr test_sampler ∧
    DataLoader_init test_ds (test_batch_size args) test_sampler = inr test_loader ∧
    (∃ model',
       outcome (epoch_loop args local_rank train_loader test_loader world_size rank
                  (py_range 1 (epochs args + 1))
                  (fresh_net w (lr args) (momentum args))) = inr model') ∧
    ∃ pre,
      Forall setup_event pre ∧
      trace (main args w)
      = pre ++ trace (epoch_loop args local_rank train_loader test_loader world_size
                        rank (py_range 1 (epochs args + 1))
                        (fresh_net w (lr args) (momentum args)))
            ++ closing args w rank.
Proof.
  intros Hrun. unfold main in *. split_run Hrun.
  repeat match goal with
         | H : outcome (getenv _ _) = inr _ |- _ => apply getenv_inr in H
         | H : outcome (int _) = inr _ |- _ => apply int_inr in H
         | H : outcome (load_mnist _ _ _) = inr _ |- _ => apply load_mnist_inr in H
         | H : outcome (lift _) = inr _ |- _ => apply lift_inr in H
         end.
  do 9 eexists. split_and!.
  - unfold global_rank.
    match goal with
    | H : environ w !! "SLURM_PROCID" = Some ?s, H' : py_int ?s = Some _ |- _ =>
        rewrite H; exact H'
    end.
  - unfold job_size.
    match goal with
    | H : environ w !! "SLURM_NTASKS" = Some ?s, H' : py_int ?s = Some _ |- _ =>
        rewrite H; exact H'
    end.
  - eassumption.
  - eassumption.
  - eassumption.
  - eassumption.
  - eassumption.
  - eassumption.
  - eexists. eassumption.
  - do 18 (apply pre_cons;
           [unfold getenv, int, dist_init, load_mnist; quiet; exact I|]).
    exists []. split; [constructor|]. cbn [app]. f_equal.
    eapply closing_trace; eassumption.
Qed.

Lemma main_returns_shape (args : Args) (w : World) :
  outcome (main args w) = inr tt →
  ∃ rank pre loop,
    global_rank w = Some rank ∧ Forall setup_event pre ∧ Forall loop_event loop ∧
    trace (main args w) = pre ++ loop ++ closing args w rank.
Proof.
  intros (rank & local_rank & world_size & ? & ? & train_loader & ? & ? & test_loader
          & Hrank & _ & _ & _ & _ & _ & _ & _ & _ & pre & Hpre & Htrace)%main_returns_loop.
  exists rank, pre. eexists. split_and!; [done|done| |exact Htrace].
  apply epoch_loop_events.
Qed.

(** ** The shape of a run of [main] that raises *)

Lemma failing_bind {A B} (P : event → Prop) (m : W A) (k : A → W B) :
  Forall P (trace m) →
  (∀ a, outcome m = inr a → ∀ e, outcome (k a) = inl e → Forall P (trace (k a))) →
  ∀ e, outcome (bind m k) = inl e → Forall P (trace (bind m k)).
Proof.
  intros Hm Hk e. destruct m as [tr [e'|a]]; cbn in *; [done|].
  specialize (Hk a eq_refl e). destruct (k a) as [tr' r]. cbn in *.
  intros Hr. apply Forall_app. split; [done|]. by apply Hk.
Qed.

(** When the three calls after the loop do not fail themselves, an
    exception comes from the start-up or from the loops. *)
Lemma main_raises_shape (args : Args) (w : World) (e : exn) :
  timing_ok w = true → save_ok w = true → cleanup_ok w = true →
  outcome (main args w) = inl e →
  Forall (λ ev, setup_event ev ∨ loop_event ev) (trace (main args w)).
Proof.
  intros Htiming Hsave Hcleanup. revert e. unfold main.
  do 18 (apply failing_bind;
         [unfold getenv, int, dist_init, load_mnist; quiet; left; exact I
         |intros ? _]).
  apply failing_bind; [|intros ? _].
  { eapply Forall_impl; [apply epoch_loop_events|]. intros ev ?. by right. }
  apply failing_bind; [quiet; left; exact I|intros ? _].
  intros e He. exfalso. revert He.
  unfold cleanup, torch_save, elapsed_seconds.
  rewrite Htiming, Hsave, Hcleanup.
  match goal with |- context [if ?r =? 0 then _ else _] =>
    by destruct (r =? 0), (save_model args)
  end.
Qed.

(** X1. A run of [main] that returns has destroyed the process group, once,
    as its very last action. *)
Theorem cleanup_is_last_on_return (args : Args) (w : World) :
  outcome (main args w) = inr tt →
  ∃ tr, trace (main args w) = tr ++ [DestroyProcessGroup] ∧
        DestroyProcessGroup ∉ tr.
Proof.
  intros (rank & pre & loop & _ & Hpre & Hloop & ->)%main_returns_shape.
  unfold closing.
  exists (pre ++ loop ++ [RecordEvent]
            ++ (if rank =? 0
                then [Print (ElapsedLine (fdiv (elapsed_time w) (of_int 1000)))]
                else [])
            ++ (if save_model args then [Save "mnist_cnn.pt"] else [])).
  split; [by rewrite <-!app_assoc|].
  rewrite !elem_of_app. intros [Hin|[Hin|[Hin|[Hin|Hin]]]].
  - rewrite Forall_forall in Hpre. by apply Hpre in Hin.
  - rewrite Forall_forall in Hloop. by apply Hloop in Hin.
  - by apply list_elem_of_singleton in Hin.
  - destruct (rank =? 0); [by apply list_elem_of_singleton in Hin|by apply elem_of_nil in Hin].
  - destruct (save_model args);
      [by apply list_elem_of_singleton in Hin|by apply elem_of_nil in Hin].
Qed.

(** X2. When the three calls after the loop (the query of the elapsed time,
    [torch.save] and [destroy_process_group]) do not fail themselves, a run of
    [main] that ends with an exception, one raised in the start-up or in the
    loops, has written no checkpoint, whatever the flag, has not printed the
    elapsed time, and has not destroyed the process group: no handler
    releases it. *)
Theorem failure_skips_checkpoint_and_cleanup (args : Args) (w : World) (e : exn) :
  timing_ok w = true → save_ok w = true → cleanup_ok w = true →
  outcome (main args w) = inl e →
  saves (trace (main args w)) = [] ∧
  (DestroyProcessGroup ∉ trace (main args w)) ∧
  (∀ t, Print (ElapsedLine t) ∉ trace (main args w)).
Proof.
  intros Htiming Hsave Hcleanup Hshape.
  apply main_raises_shape in Hshape; [|done..]. split_and!.
  - apply saves_no_save. eapply Forall_impl; [exact Hshape|].
    intros ev [Hev|Hev]; by destruct ev.
  - intros Hin. rewrite Forall_forall in Hshape. by destruct (Hshape _ Hin).
  - intros t Hin. rewrite Forall_forall in Hshape. by destruct (Hshape _ Hin).
Qed.

(** X16. With the save-model flag set, when the write of [torch.save] fails
    the run ends with a non-zero exit status and the process group is never
    destroyed: [cleanup] comes after the write and nothing catches the
    exception. *)
Theorem failed_save_skips_cleanup (args : Args) (w : World) :
  save_model args = true → save_ok w = false →
  exit_status (main args w) ≠ 0 ∧ DestroyProcessGroup ∉ trace (main args w).
Proof.
  intros Hflag Hfail.
  assert (∀ a, outcome (torch_save w "mnist_cnn.pt") ≠ inr a) as Hsave.
  { intros a. unfold torch_save. by rewrite Hfail. }
  split.
  - unfold exit_status. destruct (outcome (main args w)) as [e|[]] eqn:Hrun; [done|].
    exfalso. unfold main in Hrun. rewrite Hflag in Hrun.
    do 21 (apply bind_inr_inv in Hrun as (? & _ & Hrun)).
    apply bind_inr_inv in Hrun as (? & Hrun & _). by apply Hsave in Hrun.
  - enough (Forall not_destroy (trace (main args w))) as Hall.
    { intros Hin. rewrite Forall_forall in Hall. by apply Hall in Hin. }
    unfold main. rewrite Hflag.
    do 18 (apply Forall_trace_bind;
           [unfold getenv, int, dist_init, load_mnist; quiet; exact I|intros ? _]).
    apply Forall_trace_bind; [|intros ? _].
    { eapply Forall_impl; [apply epoch_loop_events|]. intros ev ?. by destruct ev. }
    apply Forall_trace_bind; [quiet; exact I|intros ? _].
    apply Forall_trace_bind; [unfold elapsed_seconds; quiet; exact I|intros ? _].
    apply Forall_trace_bind; [unfold torch_save; quiet; exact I|intros ? Hrun].
    by apply Hsave in Hrun.
Qed.

(** X3. With the save-model flag set, a run of [main] that returns has
    written mnist_cnn.pt exactly once: after the loop over the epochs, and
    immediately before the process group is destroyed. *)
Theorem checkpoint_just_before_cleanup (args : Args) (w : World) :
  save_model args = true → outcome (main args w) = inr tt →
  ∃ tr, trace (main args w) = tr ++ [Save "mnist_cnn.pt"; DestroyProcessGroup] ∧
        saves tr = [].
Proof.
  intros Hflag (rank & pre & loop & _ & Hpre & Hloop & ->)%main_returns_shape.
  unfold closing. rewrite Hflag.
  exists (pre ++ loop ++ [RecordEvent]
            ++ (if rank =? 0
                then [Print (ElapsedLine (fdiv (elapsed_time w) (of_int 1000)))]
                else [])).
  split; [by rewrite <-!app_assoc|].
  rewrite !saves_app.
  rewrite (saves_no_save pre), (saves_no_save loop).
  - by destruct (rank =? 0).
  - eapply Forall_impl; [exact Hloop|]. intros ev ?. by destruct ev.
  - eapply Forall_impl; [exact Hpre|]. intros ev ?. by destruct ev.
Qed.

(** X4. On the coordinator, the elapsed-time line is the last line of the
    console of a run of [main] that returns, and it shows the time between
    the two events divided by 1000. *)
Theorem elapsed_time_is_last_line (args : Args) (w : World) :
  global_rank w = Some 0 → outcome (main args w) = inr tt →
  last (console (trace (main args w)))
  = Some (ElapsedLine (fdiv (elapsed_time w) (of_int 1000))).
Proof.
  intros Hrank (rank & pre & loop & Hrank' & _ & _ & ->)%main_returns_shape.
  rewrite Hrank in Hrank'. injection Hrank' as <-.
  unfold closing. rewrite !console_app.
  change (0 =? 0) with true. cbv iota.
  destruct (save_model args); cbn; rewrite !app_assoc; apply last_snoc.
Qed.

(** ** Start-up *)

(** X5. If one of the three values that [main] converts with [int] is in the
    environment but is not an integer, [main] ends with an exception, hence a
    non-zero exit status, having done nothing but read environment values:
    no shell command, no process group, nothing on the console. *)
Theorem malformed_env_fails_fast (args : Args) (w : World) (key s : string) :
  key ∈ integer_env → environ w !! key = Some s → py_int s = None →
  exit_status (main args w) ≠ 0 ∧
  trace (main args w) `prefix_of` (Getenv <$> required_env) ∧
  console (trace (main args w)) = [].
Proof.
  intros Hkey Hsome Hint. unfold main, getenv, int.
  destruct (environ w !! "SLURM_PROCID") as [s1|] eqn:E1; cbn;
    [destruct (py_int s1) as [rank|] eqn:P1; cbn|];
    [|split_and!; [done|apply (prefix_of_required 1)|done]..].
  destruct (environ w !! "SLURM_LOCALID") as [s2|] eqn:E2; cbn;
    [destruct (py_int s2) as [local_rank|] eqn:P2; cbn|];
    [|split_and!; [done|apply (prefix_of_required 2)|done]..].
  destruct (environ w !! "SLURM_NTASKS") as [s3|] eqn:E3; cbn;
    [destruct (py_int s3) as [world_size|] eqn:P3; cbn|];
    [|split_and!; [done|apply (prefix_of_required 3)|done]..].
  exfalso. unfold integer_env in Hkey.
  repeat (apply elem_of_cons in Hkey as [->|Hkey]; [congruence|]).
  by apply elem_of_nil in Hkey.
Qed.

(** X6. When the rendezvous of [init_process_group] fails, [main] ends with
    a non-zero exit status and has gone no further than that call: no device
    is selected, no dataset is read, no model is built, and nothing is
    printed, saved or destroyed. *)
Theorem rendezvous_failure_stops_startup (args : Args) (w : World) :
  rendezvous_ok w = false →
  exit_status (main args w) ≠ 0 ∧
  Forall rendezvous_event (trace (main args w)).
Proof.
  intros Hfail. split.
  - unfold exit_status. destruct (outcome (main args w)) as [e|[]] eqn:Hrun; [done|].
    exfalso. unfold main in Hrun.
    do 8 (apply bind_inr_inv in Hrun as (? & _ & Hrun)).
    apply bind_inr_inv in Hrun as (? & Hinit & _).
    by rewrite dist_init_fails in Hinit.
  - unfold main.
    do 8 (apply Forall_trace_bind;
          [unfold getenv, int; quiet; exact I|intros ? _]).
    apply Forall_trace_bind.
    + rewrite dist_init_fails by done. by repeat constructor.
    + intros ? Hinit. by rewrite dist_init_fails in Hinit.
Qed.

(** X7. With the four values in the environment and a rendezvous that
    succeeds, [main] starts by reading them in the order of the script, asks
    the shell for the first host of the node list, initialises the process
    group at tcp://<that host>:23456 with the rank and the world size it has
    read, and then selects the device numbered by the local rank. *)
Theorem startup_sequence (args : Args) (w : World)
    (rank_s local_rank_s world_size_s iplist : string) (rank local_rank world_size : Z) :
  environ w !! "SLURM_PROCID" = Some rank_s → py_int rank_s = Some rank →
  environ w !! "SLURM_LOCALID" = Some local_rank_s →
  py_int local_rank_s = Some local_rank →
  environ w !! "SLURM_NTASKS" = Some world_size_s →
  py_int world_size_s = Some world_size →
  environ w !! "SLURM_JOB_NODELIST" = Some iplist →
  rendezvous_ok w = true →
  let cmd := ("scontrol show hostname " +:+ iplist +:+ " | head -n1")%string in
  [Getenv "SLURM_PROCID"; Getenv "SLURM_LOCALID"; Getenv "SLURM_NTASKS";
   Getenv "SLURM_JOB_NODELIST"; Subprocess cmd;
   InitProcessGroup ("tcp://" +:+ getoutput cmd +:+ ":23456") rank world_size;
   CudaInit; SetDevice local_rank]
    `prefix_of` trace (main args w).
Proof.
  intros E1 P1 E2 P2 E3 P3 E4 Hok cmd. unfold main.
  rewrite (getenv_ok _ _ _ E1), trace_bind_pair, (int_ok _ _ P1), trace_bind_pair.
  rewrite (getenv_ok _ _ _ E2), trace_bind_pair, (int_ok _ _ P2), trace_bind_pair.
  rewrite (getenv_ok _ _ _ E3), trace_bind_pair, (int_ok _ _ P3), trace_bind_pair.
  rewrite (getenv_ok _ _ _ E4), trace_bind_pair.
  unfold emit at 1. rewrite trace_bind_pair.
  rewrite (dist_init_ok _ _ _ _ _ _ Hok), trace_bind_pair.
  cbn [app]. by eexists.
Qed.

(** ** The lines of [train] *)

Lemma train_loop_console args loader epoch batch_idx batches model :
  log_interval args ≠ 0 →
  console (trace (train_loop args loader epoch 0 batch_idx batches model))
  = (λ t, train_line loader epoch t.1.1 t.1.2 t.2)
      <$> filter (λ t, logged (log_interval args) t.1.1)
            (zip (zip (seq batch_idx (length batches)) batches)
                 (train_losses loader model batches)).
Proof.
  intros Hlog. revert batch_idx model.
  induction batches as [|idxs batches IH]; intros batch_idx model; cbn [train_loop].
  { done. }
  rewrite (train_batch_eq args loader epoch 0 batch_idx idxs model Hlog).
  rewrite trace_bind_pair, !console_app, IH.
  cbn [length seq train_losses zip_with]. rewrite filter_cons, andb_true_r.
  cbn [fst snd].
  destruct (logged (log_interval args) batch_idx) eqn:Hl.
  - case_decide as Hd; [reflexivity|]. by destruct Hd.
  - case_decide as Hd; [by destruct Hd|reflexivity].
Qed.

(** X8. With a log interval of 0, [train] raises ZeroDivisionError in its
    first batch, on every rank (the remainder is computed before the rank is
    looked at): the batch has been fetched and the optimizer has stepped
    once, nothing is printed, and no further batch is touched. *)
Theorem zero_log_interval_stops_training (args : Args) (model : Net)
    (local_rank : Z) (train_loader : DataLoader) (epoch rank : Z)
    (idxs : list nat) (rest : list (list nat)) :
  log_interval args = 0 → loader_iter train_loader = idxs :: rest →
  train args model local_rank train_loader epoch rank
  = (TrainOp epoch <$> batch_ops idxs, inl ZeroDivisionError).
Proof.
  intros Hlog Hiter. unfold train. rewrite Hiter. cbn [train_loop].
  unfold train_batch, py_mod. rewrite Hlog. reflexivity.
Qed.

(** X9. With a non-zero log interval, the console of a pass of [train] on
    the coordinator is the progress line of every batch whose index is a
    multiple of the interval, the first batch included, in the order of the
    loader and nothing else; the line of a batch shows the epoch, its index
    times its size, the size of the dataset, the percentage of its index in
    the number of batches, and the loss of that batch on the replica as the
    steps before it have left it. *)
Theorem train_logs_every_interval (args : Args) (model : Net) (local_rank : Z)
    (train_loader : DataLoader) (epoch : Z) :
  log_interval args ≠ 0 →
  console (trace (train args model local_rank train_loader epoch 0))
  = (λ t, train_line train_loader epoch t.1.1 t.1.2 t.2)
      <$> filter (λ t, logged (log_interval args) t.1.1)
            (train_log train_loader (net_train model) (loader_iter train_loader)).
Proof. intros Hlog. unfold train, train_log. by apply train_loop_console. Qed.

(** ** The results of [test] *)

Lemma count_correct_bounds (output : list Logits) (target : list Z) :
  0 ≤ count_correct output target ≤ Z.of_nat (length target).
Proof.
  unfold count_correct. split; [lia|]. apply inj_le.
  etrans; [apply length_filter|]. rewrite length_zip. lia.
Qed.

Lemma correct_foldl (loader : DataLoader) (batches : list (list nat)) (acc : EvalAcc) :
  correct acc ≤ correct (foldl (eval_step loader) acc batches)
  ≤ correct acc + Z.of_nat (length (mjoin batches)).
Proof.
  revert acc. induction batches as [|idxs batches IH]; intros acc.
  { cbn. lia. }
  cbn [foldl]. specialize (IH (eval_step loader acc idxs)).
  change (mjoin (idxs :: batches)) with (idxs ++ mjoin batches).
  rewrite length_app.
  pose proof (count_correct_bounds
                (forward (acc_model acc) (collate (dl_dataset loader) idxs).1).2
                (collate (dl_dataset loader) idxs).2) as Hc.
  cbn [collate fst snd] in Hc. rewrite length_fmap in Hc.
  set (c := count_correct _ _) in Hc.
  change (correct (eval_step loader acc idxs)) with (correct acc + c) in IH.
  lia.
Qed.

Lemma test_cases args model local_rank loader world_size rank :
  let run := test args model local_rank loader world_size rank in
  let acc := foldl (eval_step loader) (eval_start model) (loader_iter loader) in
  (world_size = 0 ∧ run = ([], inl ZeroDivisionError)) ∨
  (world_size ≠ 0 ∧ fis_zero (expected_shard_size loader world_size) = true ∧
   run = (eval_ops (loader_iter loader), inl ZeroDivisionError)) ∨
  (world_size ≠ 0 ∧ fis_zero (expected_shard_size loader world_size) = false ∧
   ∃ res, outcome run = inr res ∧ correct res = correct acc ∧
          acc_model res = acc_model acc).
Proof.
  intros run acc. destruct (decide (world_size = 0)) as [->|HW].
  { left. split; [done|]. unfold run, test, int_truediv. reflexivity. }
  right. destruct (fis_zero (expected_shard_size loader world_size)) eqn:Hlen.
  - left. split_and!; [done..|].
    unfold run, test, int_truediv, float_truediv.
    apply Z.eqb_neq in HW. rewrite HW, test_loop_run.
    unfold expected_shard_size in Hlen. cbn. rewrite Hlen. cbn.
    by rewrite app_nil_r.
  - right. split_and!; [done..|].
    unfold run. rewrite (test_run args model local_rank loader world_size rank HW Hlen).
    by eexists.
Qed.

(** X10. When [test] returns, its count of correct predictions lies between
    0 and the number of examples the loader handed to the rank, which is the
    number it shows as numerator of the accuracy. *)
Theorem correct_at_most_examples (args : Args) (model : Net) (local_rank : Z)
    (test_loader : DataLoader) (world_size rank : Z) (res : EvalAcc) :
  outcome (test args model local_rank test_loader world_size rank) = inr res →
  0 ≤ correct res ≤ Z.of_nat (length (mjoin (loader_iter test_loader))).
Proof.
  intros Hres.
  pose proof (correct_foldl test_loader (loader_iter test_loader) (eval_start model))
    as Hbound. cbn [eval_start correct] in Hbound.
  destruct (test_cases args model local_rank test_loader world_size rank)
    as [[_ Hrun]|[(_ & _ & Hrun)|(_ & _ & res' & Hrun & Hcorrect & _)]].
  - by rewrite Hrun in Hres.
  - by rewrite Hrun in Hres.
  - rewrite Hrun in Hres. injection Hres as <-. rewrite Hcorrect. lia.
Qed.

(** X11. [test] raises ZeroDivisionError when the world size is 0 or when
    len(dataset)/world_size is zero, as for an empty evaluation set; nothing
    is printed then, on the coordinator either. *)
Theorem test_division_by_zero (args : Args) (model : Net) (local_rank : Z)
    (test_loader : DataLoader) (world_size rank : Z) :
  world_size = 0 ∨ fis_zero (expected_shard_size test_loader world_size) = true →
  outcome (test args model local_rank test_loader world_size rank)
  = inl ZeroDivisionError ∧
  console (trace (test args model local_rank test_loader world_size rank)) = [].
Proof.
  intros Hzero.
  destruct (test_cases args model local_rank test_loader world_size rank)
    as [[_ Hrun]|[(_ & _ & Hrun)|(HW & Hlen & _)]].
  - by rewrite Hrun.
  - rewrite Hrun. split; [done|]. apply console_eval_ops.
  - destruct Hzero as [?|Hz]; [done|]. by rewrite Hz in Hlen.
Qed.

(** X12. A pass of [test] only fetches batches, runs the forward pass and
    computes the loss, and prints at most lines of evaluation: it never
    clears gradients, runs a backward pass or steps the optimizer, and it
    writes no file.  The replica it leaves is the one it was given, put in
    evaluation mode and taken through the forward passes of the batches, and
    nothing else. *)
Theorem test_only_evaluates (args : Args) (model : Net) (local_rank : Z)
    (test_loader : DataLoader) (world_size rank : Z) :
  let run := test args model local_rank test_loader world_size rank in
  Forall eval_event (trace run) ∧ train_ops (trace run) = [] ∧
  saves (trace run) = [] ∧
  ∀ res, outcome run = inr res →
         acc_model res
         = foldl (forward_only test_loader) (net_eval model) (loader_iter test_loader).
Proof.
  intros run.
  pose proof (test_events args model local_rank test_loader world_size rank) as Hev.
  fold run in Hev. split_and!; [done| | |].
  - by eapply train_ops_eval_events.
  - apply saves_no_save. eapply Forall_impl; [exact Hev|].
    intros ev. by destruct ev.
  - intros res Hres.
    destruct (test_cases args model local_rank test_loader world_size rank)
      as [[_ Hrun]|[(_ & _ & Hrun)|(_ & _ & res' & Hrun & _ & Hmodel)]];
      fold run in Hrun; rewrite Hrun in Hres; [done..|].
    injection Hres as <-. by rewrite Hmodel, acc_model_foldl.
Qed.

(** ** The loop over the epochs *)

Lemma py_range_empty (a b : Z) : b ≤ a → py_range a b = [].
Proof. intros Hle. unfold py_range. by replace (Z.to_nat (b - a)) with 0%nat by lia. Qed.

(** X13. With an epoch count of 0 or less the range of the loop is empty:
    [main] trains and evaluates nothing and prints no progress or evaluation
    line, whatever else happens in the run. *)
Theorem no_epochs_no_training (args : Args) (w : World) :
  epochs args ≤ 0 → Forall outside_loop (trace (main args w)).
Proof.
  intros Hepochs. unfold main.
  rewrite (py_range_empty 1 (epochs args + 1)) by lia. cbn [epoch_loop].
  unfold getenv, int, dist_init, load_mnist, cleanup. quiet; exact I.
Qed.

Lemma bind_ext {A B} (m : W A) (k k' : A → W B) :
  (∀ a, k a = k' a) → bind m k = bind m k'.
Proof. intros Hk. destruct m as [tr [e|a]]; cbn; [done|]. by rewrite Hk. Qed.

(** Of its arguments, the loops read the log interval only. *)
Lemma train_loop_args args args' loader epoch rank batch_idx batches model :
  log_interval args = log_interval args' →
  train_loop args loader epoch rank batch_idx batches model
  = train_loop args' loader epoch rank batch_idx batches model.
Proof.
  intros Hlog. revert batch_idx model.
  induction batches as [|idxs batches IH]; intros batch_idx model; cbn [train_loop].
  { done. }
  unfold train_batch. rewrite Hlog. apply bind_ext. intros model'. apply IH.
Qed.

Lemma epoch_loop_args args args' local_rank train_loader test_loader world_size rank
    es model :
  log_interval args = log_interval args' →
  epoch_loop args local_rank train_loader test_loader world_size rank es model
  = epoch_loop args' local_rank train_loader test_loader world_size rank es model.
Proof.
  intros Hlog. revert model.
  induction es as [|epoch es IH]; intros model; cbn [epoch_loop]; [done|].
  unfold epoch_body, train.
  rewrite (train_loop_args args args') by done.
  apply bind_ext. intros model'. apply IH.
Qed.

(** X14. [main] never looks at the seed or at the no-cuda flag of its
    arguments: changing them changes nothing of the run, neither its events
    nor its outcome. *)
Theorem seed_and_no_cuda_are_ignored (args : Args) (w : World) (s : Z) (b : bool) :
  main (with_seed_no_cuda args s b) w = main args w.
Proof.
  unfold main. do 18 (apply bind_ext; intros ?).
  by rewrite (epoch_loop_args (with_seed_no_cuda args s b) args).
Qed.

Lemma train_lines_not_test (epoch : Z) (tr : list event) :
  Forall (train_event epoch) tr → filter is_test_line (console tr) = [].
Proof.
  induction 1 as [|ev tr Hev _ IH]; [done|].
  destruct ev as [| | | | | | | | | | |[]| |]; done.
Qed.

Lemma epoch_loop_test_lines args local_rank train_loader test_loader world_size es model :
  log_interval args ≠ 0 → world_size ≠ 0 →
  fis_zero (expected_shard_size test_loader world_size) = false →
  length (filter is_test_line
            (console (trace (epoch_loop args local_rank train_loader test_loader
                               world_size 0 es model))))
  = length es.
Proof.
  intros Hlog HW Hlen. revert model.
  induction es as [|epoch es IH]; intros model; cbn [epoch_loop]; [done|].
  destruct (epoch_body_run args local_rank train_loader test_loader world_size 0
              epoch model Hlog HW Hlen) as (model1 & Hout1 & _).
  rewrite (trace_bind_inr _ _ _ Hout1), console_app, filter_app, length_app, IH.
  cbn [length]. f_equal. clear Hout1 model1 IH.
  unfold epoch_body, train.
  destruct (train_loop_run args train_loader epoch 0 0 (loader_iter train_loader)
              (net_train model) Hlog) as (model1 & Hout1 & _).
  rewrite (trace_bind_inr _ _ _ Hout1), console_app, filter_app.
  rewrite (train_lines_not_test epoch) by apply train_loop_events.
  rewrite (test_run args model1 local_rank test_loader world_size 0 HW Hlen).
  rewrite trace_bind_pair, console_app, console_app, console_eval_ops.
  reflexivity.
Qed.

(** X15. In a job whose loops do not raise, the coordinator prints exactly
    one evaluation line per epoch: max_epochs of them for a positive epoch
    count, none otherwise. *)
Theorem one_evaluation_line_per_epoch (args : Args) (local_rank : Z)
    (train_loader test_loader : DataLoader) (world_size : Z) (model : Net) :
  log_interval args ≠ 0 → world_size ≠ 0 →
  fis_zero (expected_shard_size test_loader world_size) = false →
  length (filter is_test_line
            (console (trace (epoch_loop args local_rank train_loader test_loader
                               world_size 0 (py_range 1 (epochs args + 1)) model))))
  = Z.to_nat (epochs args).
Proof.
  intros Hlog HW Hlen.
  rewrite (epoch_loop_test_lines args local_rank train_loader test_loader world_size
             _ model Hlog HW Hlen).
  rewrite length_py_range. f_equal. lia.
Qed.

(** ** The indices a run fetches *)

Lemma train_loop_returns_ops args loader epoch rank batch_idx batches model model' :
  outcome (train_loop args loader epoch rank batch_idx batches model) = inr model' →
  train_ops (trace (train_loop args loader epoch rank batch_idx batches model))
  = epoch_ops batches epoch.
Proof.
  intros Hout. destruct batches as [|idxs rest]; [done|].
  destruct (decide (log_interval args = 0)) as [Hlog|Hlog].
  - exfalso. cbn [train_loop] in Hout. unfold train_batch, py_mod in Hout.
    rewrite Hlog in Hout. discriminate Hout.
  - by destruct (train_loop_run args loader epoch rank batch_idx (idxs :: rest)
                   model Hlog) as (? & _ & ?).
Qed.

Lemma eval_fetches_app (tr1 tr2 : list event) :
  eval_fetches (tr1 ++ tr2) = eval_fetches tr1 ++ eval_fetches tr2.
Proof. apply omap_app. Qed.

Lemma eval_fetches_eval_ops (batches : list (list nat)) :
  eval_fetches (eval_ops batches) = batches.
Proof.
  induction batches as [|idxs batches IH]; [done|].
  unfold eval_ops in *. cbn [flat_map]. rewrite eval_fetches_app, IH. done.
Qed.

Lemma eval_fetches_train_events (epoch : Z) (tr : list event) :
  Forall (train_event epoch) tr → eval_fetches tr = [].
Proof.
  induction 1 as [|ev tr Hev _ IH]; [done|].
  destruct ev as [| | | | | | | | | | |[]| |]; done.
Qed.

Lemma train_ops_outside (tr : list event) : Forall outside_loop tr → train_ops tr = [].
Proof.
  induction 1 as [|ev tr Hev _ IH]; [done|].
  destruct ev as [| | | | | | | | | | |[]| |]; done.
Qed.

Lemma eval_fetches_outside (tr : list event) :
  Forall outside_loop tr → eval_fetches tr = [].
Proof.
  induction 1 as [|ev tr Hev _ IH]; [done|].
  destruct ev as [| | | | | | | | | | |[]| |]; done.
Qed.

Lemma setup_outside (tr : list event) : Forall setup_event tr → Forall outside_loop tr.
Proof. intros Htr. eapply Forall_impl; [exact Htr|]. by intros []. Qed.

Lemma closing_outside args w rank : Forall outside_loop (closing args w rank).
Proof.
  unfold closing. destruct (rank =? 0), (save_model args); by repeat constructor.
Qed.

Lemma test_returns_fetches args model local_rank loader world_size rank res :
  outcome (test args model local_rank loader world_size rank) = inr res →
  eval_fetches (trace (test args model local_rank loader world_size rank))
  = loader_iter loader.
Proof.
  intros Hout.
  destruct (test_cases args model local_rank loader world_size rank)
    as [[_ Hrun]|[(_ & _ & Hrun)|(HW & Hlen & _)]].
  - rewrite Hrun in Hout. discriminate Hout.
  - rewrite Hrun in Hout. discriminate Hout.
  - rewrite (test_run args model local_rank loader world_size rank HW Hlen).
    unfold trace. cbn [fst]. rewrite eval_fetches_app, eval_fetches_eval_ops.
    destruct (rank =? 0); cbn; by rewrite app_nil_r.
Qed.

(** A loop over the epochs that returns has run whole passes: the training
    operations of every epoch in turn, and one pass over the test loader
    after each. *)
Lemma epoch_loop_returns args local_rank train_loader test_loader world_size rank es
    model model' :
  outcome (epoch_loop args local_rank train_loader test_loader world_size rank es
             model) = inr model' →
  let tr := trace (epoch_loop args local_rank train_loader test_loader world_size
                     rank es model) in
  train_ops tr = flat_map (epoch_ops (loader_iter train_loader)) es ∧
  eval_fetches tr = flat_map (λ _, loader_iter test_loader) es.
Proof.
  revert model. induction es as [|epoch es IH]; intros model Hout; cbn [epoch_loop] in *.
  { done. }
  apply bind_inr_inv in Hout as (model1 & Hbody & Hrest).
  rewrite (trace_bind_inr _ _ _ Hbody). cbv zeta.
  destruct (IH model1 Hrest) as [IHt IHe].
  rewrite train_ops_app, eval_fetches_app, IHt, IHe. cbn [flat_map].
  unfold epoch_body in *.
  apply bind_inr_inv in Hbody as (model2 & Htrain & Hbody).
  rewrite (trace_bind_inr _ _ _ Htrain).
  apply bind_inr_inv in Hbody as (res & Htest & _).
  rewrite (trace_bind_inr _ _ _ Htest).
  unfold trace at 3 6. cbn [fst ret]. rewrite !app_nil_r.
  rewrite !train_ops_app, !eval_fetches_app.
  unfold train in *.
  rewrite (train_loop_returns_ops _ _ _ _ _ _ _ _ Htrain).
  rewrite (train_ops_eval_events _ (test_events _ _ _ _ _ _)).
  rewrite (eval_fetches_train_events _ _ (train_loop_events _ _ _ _ _ _ _)).
  rewrite (test_returns_fetches _ _ _ _ _ _ _ Htest).
  by rewrite app_nil_r.
Qed.

Lemma sampler_init_inr (d : Dataset) (W R seed : Z) (s : DistributedSampler) :
  DistributedSampler_init d W R seed = inr s →
  s = sampler_for (ds_len d) W R seed ∧ 0 ≤ R < W.
Proof.
  unfold DistributedSampler_init.
  destruct (Z.geb_spec R W), (Z.ltb_spec R 0); cbn [orb]; try discriminate.
  intros [= <-]. split; [done|lia].
Qed.

Lemma loader_init_inr (d : Dataset) (b : Z) (s : DistributedSampler) (dl : DataLoader) :
  DataLoader_init d b s = inr dl → dl_sampler dl = s.
Proof. unfold DataLoader_init. destruct (b <=? 0); [done|]. by intros [= <-]. Qed.

Lemma mjoin_flat_map_const {A B} (l : list (list A)) (es : list B) :
  mjoin (flat_map (λ _, l) es) = mjoin (replicate (length es) (mjoin l)).
Proof.
  induction es as [|e es IH]; [done|].
  cbn [flat_map length replicate]. by rewrite join_app, IH.
Qed.

(** In a run that returns, the indices fetched for training in any epoch are
    the sequence of the sampler built for the size of the training set, the
    world size and the rank of the process, with seed 0; the indices fetched
    for evaluation are that of the test set, once per epoch. *)
Lemma run_shards (args : Args) (w : World) (N Nt : nat) (W R : Z) :
  outcome (main args w) = inr tt →
  job_size w = Some W → global_rank w = Some R →
  ds_len <$> mnist w (datasetDir args) true = Some N →
  ds_len <$> mnist w (datasetDir args) false = Some Nt →
  0 ≤ R < W ∧
  (∀ e, 1 ≤ e ≤ epochs args →
        mjoin (epoch_batches e (trace (main args w)))
        = sampler_iter (sampler_for N W R 0)) ∧
  mjoin (eval_fetches (trace (main args w)))
  = mjoin (replicate (Z.to_nat (epochs args)) (sampler_iter (sampler_for Nt W R 0))).
Proof.
  intros Hrun HW HR HN HNt.
  destruct (main_returns_loop args w Hrun)
    as (rank & local_rank & ws & train_ds & train_sampler & train_loader
        & test_ds & test_sampler & test_loader
        & Hrank & Hws & Htr & Hts & Htl & Hte & Htes & Htel
        & (model' & Hloop) & pre & Hpre & Htrace).
  rewrite Hrank in HR. rewrite Hws in HW. rewrite Htr in HN. rewrite Hte in HNt.
  cbn in HN, HNt. simplify_eq.
  apply sampler_init_inr in Hts as [-> HRW].
  apply sampler_init_inr in Htes as [-> _].
  apply loader_init_inr in Htl. apply loader_init_inr in Htel.
  destruct (epoch_loop_returns _ _ _ _ _ _ _ _ _ Hloop) as [Hops Hfetch].
  apply setup_outside in Hpre.
  split; [done|]. rewrite Htrace. split.
  - intros e He.
    rewrite epoch_batches_train_ops, !train_ops_app, Hops.
    rewrite (train_ops_outside _ Hpre), (train_ops_outside _ (closing_outside _ _ _)).
    rewrite app_nil_r. cbn [app].
    rewrite fetched_flat_map;
      [|apply NoDup_py_range|apply elem_of_py_range; lia].
    unfold loader_iter. by rewrite mjoin_batches_from, Htl.
  - rewrite !eval_fetches_app, Hfetch.
    rewrite (eval_fetches_outside _ Hpre),
      (eval_fetches_outside _ (closing_outside _ _ _)).
    rewrite app_nil_r. cbn [app].
    rewrite mjoin_flat_map_const, length_py_range.
    unfold loader_iter. rewrite mjoin_batches_from, Htel.
    do 2 f_equal. lia.
Qed.

(** C7. Two runs of [main] that return, in jobs of the same world size W, on
    processes of the same rank R and over training sets of the same size N
    and test sets of the same size Nt, fetch the same indices, whatever else
    differs (the examples, the batch sizes, the learning rate, the initial
    model, the other arguments): R is a valid rank of W; in any epoch of the
    one and any epoch of the other the indices fetched for training are the
    same sequence, the one of the sampler for (N, W, R) and the seed 0 that
    the script leaves to the sampler; and the indices fetched for evaluation
    are in each run the sequence of the sampler for (Nt, W, R, 0), once per
    epoch of that run. *)
Theorem shard_deterministic (args1 args2 : Args) (w1 w2 : World) (N Nt : nat)
    (W R : Z) :
  outcome (main args1 w1) = inr tt → outcome (main args2 w2) = inr tt →
  job_size w1 = Some W → job_size w2 = Some W →
  global_rank w1 = Some R → global_rank w2 = Some R →
  ds_len <$> mnist w1 (datasetDir args1) true = Some N →
  ds_len <$> mnist w2 (datasetDir args2) true = Some N →
  ds_len <$> mnist w1 (datasetDir args1) false = Some Nt →
  ds_len <$> mnist w2 (datasetDir args2) false = Some Nt →
  0 ≤ R < W ∧
  (∀ e1 e2, 1 ≤ e1 ≤ epochs args1 → 1 ≤ e2 ≤ epochs args2 →
     mjoin (epoch_batches e1 (trace (main args1 w1)))
     = mjoin (epoch_batches e2 (trace (main args2 w2))) ∧
     mjoin (epoch_batches e1 (trace (main args1 w1)))
     = sampler_iter (sampler_for N W R 0)) ∧
  mjoin (eval_fetches (trace (main args1 w1)))
  = mjoin (replicate (Z.to_nat (epochs args1)) (sampler_iter (sampler_for Nt W R 0))) ∧
  mjoin (eval_fetches (trace (main args2 w2)))
  = mjoin (replicate (Z.to_nat (epochs args2)) (sampler_iter (sampler_for Nt W R 0))).
Proof.
  intros Hrun1 Hrun2 HW1 HW2 HR1 HR2 HN1 HN2 HNt1 HNt2.
  destruct (run_shards args1 w1 N Nt W R Hrun1 HW1 HR1 HN1 HNt1)
    as (HRW & Htrain1 & Heval1).
  destruct (run_shards args2 w2 N Nt W R Hrun2 HW2 HR2 HN2 HNt2)
    as (_ & Htrain2 & Heval2).
  split_and!; [lia..| |done|done].
  intros e1 e2 He1 He2. by rewrite Htrain1, Htrain2.
Qed.

End Further.

(** * The further facts on the small runtime *)

Section FurtherExamples.
#[local] Existing Instance toy.

Lemma cleanup_is_last_on_return_witness :
  outcome (main (toy_args 1 true) (toy_world "1")) = inr tt ∧
  ∃ tr, trace (main (toy_args 1 true) (toy_world "1")) = tr ++ [DestroyProcessGroup] ∧
        DestroyProcessGroup ∉ tr.
Proof.
  split; [by vm_compute|].
  apply cleanup_is_last_on_return. by vm_compute.
Defined.

Lemma failure_skips_checkpoint_and_cleanup_witness :
  outcome (main (toy_args_interval 0 true) (toy_world "0")) = inl ZeroDivisionError ∧
  saves (trace (main (toy_args_interval 0 true) (toy_world "0"))) = [].
Proof.
  split; [by vm_compute|].
  apply (failure_skips_checkpoint_and_cleanup (toy_args_interval 0 true)
           (toy_world "0") ZeroDivisionError); by vm_compute.
Defined.

Lemma failed_save_skips_cleanup_witness :
  save_ok toy_world_disk_full = false ∧
  exit_status (main (toy_args 1 true) toy_world_disk_full) ≠ 0%Z ∧
  saves (trace (main (toy_args 1 true) toy_world_disk_full)) = ["mnist_cnn.pt"].
Proof.
  split; [reflexivity|]. split; [|by vm_compute].
  apply (failed_save_skips_cleanup (toy_args 1 true) toy_world_disk_full);
    reflexivity.
Defined.

Lemma checkpoint_just_before_cleanup_witness :
  outcome (main (toy_args 1 true) (toy_world "0")) = inr tt ∧
  ∃ tr, trace (main (toy_args 1 true) (toy_world "0"))
        = tr ++ [Save "mnist_cnn.pt"; DestroyProcessGroup] ∧ saves tr = [].
Proof.
  split; [by vm_compute|].
  apply checkpoint_just_before_cleanup; by vm_compute.
Defined.

Lemma elapsed_time_is_last_line_witness :
  global_rank (toy_world "0") = Some 0%Z ∧
  last (console (trace (main (toy_args 2 false) (toy_world "0"))))
  = Some (ElapsedLine (fdiv (elapsed_time (toy_world "0")) (of_int 1000))).
Proof.
  split; [by vm_compute|].
  apply elapsed_time_is_last_line; by vm_compute.
Defined.

Lemma malformed_env_fails_fast_witness :
  environ (toy_world "x") !! "SLURM_LOCALID" = Some "x" ∧
  py_int "x" = None ∧
  exit_status (main (toy_args 1 true) (toy_world "x")) ≠ 0%Z.
Proof.
  split; [by vm_compute|]. split; [by vm_compute|].
  apply (malformed_env_fails_fast (toy_args 1 true) (toy_world "x")
           "SLURM_LOCALID" "x").
  - unfold integer_env. apply elem_of_cons. right. apply elem_of_cons. by left.
  - by vm_compute.
  - by vm_compute.
Defined.

Lemma rendezvous_failure_stops_startup_witness :
  rendezvous_ok toy_world_unreachable = false ∧
  Forall rendezvous_event (trace (main (toy_args 1 true) toy_world_unreachable)).
Proof.
  split; [reflexivity|].
  apply rendezvous_failure_stops_startup. reflexivity.
Defined.

Lemma startup_sequence_witness :
  [Getenv "SLURM_PROCID"; Getenv "SLURM_LOCALID"; Getenv "SLURM_NTASKS";
   Getenv "SLURM_JOB_NODELIST";
   Subprocess "scontrol show hostname node[0-1] | head -n1";
   InitProcessGroup "tcp://node0:23456" 1 4; CudaInit; SetDevice 1]
    `prefix_of` trace (main (toy_args 1 true) (toy_world "1")).
Proof.
  apply (startup_sequence (toy_args 1 true) (toy_world "1")
           "1" "1" "4" "node[0-1]" 1 1 4); by vm_compute.
Defined.

Lemma zero_log_interval_stops_training_witness :
  loader_iter (toy_loader 1) = [[1; 5]; [9]]%nat ∧
  train (toy_args_interval 0 false) 0%nat 1 (toy_loader 1) 1 1
  = (TrainOp 1 <$> batch_ops [1; 5]%nat, inl ZeroDivisionError).
Proof.
  split; [by vm_compute|].
  apply (zero_log_interval_stops_training (toy_args_interval 0 false) 0%nat 1
           (toy_loader 1) 1 1 [1; 5]%nat [[9]%nat]); by vm_compute.
Defined.

Lemma train_logs_every_interval_witness :
  train_log (toy_loader 0) 0%nat (loader_iter (toy_loader 0))
  = [(0%nat, [0; 4]%nat, 1%Q); (1%nat, [8]%nat, 4%Q)] ∧
  console (trace (train (toy_args_interval 2 false) 0%nat 0 (toy_loader 0) 1 0))
  = [TrainLine 1 0 10 0%Q 1%Q].
Proof.
  split; [by vm_compute|].
  rewrite (train_logs_every_interval (toy_args_interval 2 false) 0%nat 0
             (toy_loader 0) 1); by vm_compute.
Defined.

Lemma correct_at_most_examples_witness :
  outcome (test (toy_args 1 false) 0%nat 0 (toy_loader 0) 4 0)
  = inr (@Build_EvalAcc toy 0%nat 2%Q 3) ∧
  (0 ≤ 3 ≤ Z.of_nat (length (mjoin (loader_iter (toy_loader 0)))))%Z.
Proof.
  split; [by vm_compute|].
  apply (correct_at_most_examples (toy_args 1 false) 0%nat 0 (toy_loader 0) 4 0
           (@Build_EvalAcc toy 0%nat 2%Q 3)).
  by vm_compute.
Defined.

Lemma test_division_by_zero_witness :
  fis_zero (expected_shard_size toy_empty_loader 4) = true ∧
  outcome (test (toy_args 1 false) 0%nat 0 toy_empty_loader 4 0)
  = inl ZeroDivisionError.
Proof.
  split; [by vm_compute|].
  apply (test_division_by_zero (toy_args 1 false) 0%nat 0 toy_empty_loader 4 0).
  right. by vm_compute.
Defined.

Lemma no_epochs_no_training_witness :
  (epochs (toy_args 0 true) ≤ 0)%Z ∧
  Forall outside_loop (trace (main (toy_args 0 true) (toy_world "0"))).
Proof.
  split; [by vm_compute|].
  apply no_epochs_no_training. by vm_compute.
Defined.

Lemma one_evaluation_line_per_epoch_witness :
  length (filter is_test_line
            (console (trace (epoch_loop (toy_args 2 false) 0 (toy_loader 0)
                               (toy_loader 0) 4 0 (py_range 1 (2 + 1)) 0%nat))))
  = 2%nat.
Proof.
  apply (one_evaluation_line_per_epoch (toy_args 2 false) 0 (toy_loader 0)
           (toy_loader 0) 4 0%nat); by vm_compute.
Defined.

Lemma shard_deterministic_witness :
  mjoin (epoch_batches 2 (trace (main (toy_args 2 false) (toy_world "1"))))
  = [1; 5; 9]%nat ∧
  mjoin (epoch_batches 1 (trace (main toy_args_other (toy_world_other "1"))))
  = [1; 5; 9]%nat ∧
  mjoin (eval_fetches (trace (main (toy_args 2 false) (toy_world "1"))))
  = [1; 5; 9; 1; 5; 9]%nat ∧
  mjoin (eval_fetches (trace (main toy_args_other (toy_world_other "1"))))
  = [1; 5; 9]%nat.
Proof.
  destruct (shard_deterministic (toy_args 2 false) toy_args_other
              (toy_world "1") (toy_world_other "1") 10 10 4 1)
    as (_ & Htrain & Heval1 & Heval2);
    [by vm_compute| by vm_compute | by vm_compute | by vm_compute | by vm_compute
    | by vm_compute | by vm_compute | by vm_compute | by vm_compute | by vm_compute |].
  destruct (Htrain 2 1) as [Heq Hseq]; [cbn; lia | cbn; lia |].
  split_and!.
  - rewrite Hseq. by vm_compute.
  - rewrite <-Heq, Hseq. by vm_compute.
  - rewrite Heval1. by vm_compute.
  - rewrite Heval2. by vm_compute.
Defined.

End FurtherExamples.
